(** * PDF image extractor: the extraction pipeline of backend/main.py

    A shallow embedding of [extract_images_from_pdf] and of the
    [/api/extract-images] endpoint, with the properties of the pipeline:
    deduplication by xref, the acceptance filters, colour normalisation,
    numbering of the records, and the lifecycle of the document handle and
    of the temporary file. *)

From Stdlib Require Import ZArith NArith Lia.
From Stdlib.Strings Require Import Ascii String Byte.
From stdpp Require Import base numbers option list sets gmap strings sorting.

Local Open Scope Z_scope.

(** ** Python values *)

Module Py.

(** An exception is known to the program through [str(e)] only. *)
Inductive exn : Type := Exception (msg : string).

Definition str (e : exn) : string := let 'Exception msg := e in msg.

(** The outcome of a call that may raise. *)
Inductive result (A : Type) : Type :=
| Ok (a : A)
| Raise (e : exn).
Arguments Ok {A} a.
Arguments Raise {A} e.

(** [needle in hay] on strings. *)
Fixpoint contains (needle hay : string) : bool :=
  String.prefix needle hay ||
  match hay with
  | EmptyString => false
  | String _ rest => contains needle rest
  end.

(** [len(xs)] *)
Definition len {A} (xs : list A) : Z := Z.of_nat (length xs).

End Py.
Export Py.

(** ** base64.b64encode (RFC 4648, standard alphabet, padded) *)

Module Base64.

Definition alphabet : string :=
  "ABCDEFGHIJKLMNOPQRSTUVWXYZabcdefghijklmnopqrstuvwxyz0123456789+/".

Definition pad : ascii := "="%char.

(** The character of a sextet. *)
Definition digit (n : N) : ascii :=
  match String.get (N.to_nat n) alphabet with
  | Some c => c
  | None => pad
  end.

Fixpoint index_from (i : N) (c : ascii) (s : string) : option N :=
  match s with
  | EmptyString => None
  | String d rest => if Ascii.eqb c d then Some i else index_from (N.succ i) c rest
  end.

(** The sextet of a character. *)
Definition value (c : ascii) : option N := index_from 0%N c alphabet.

(** The 24-bit group of three bytes. *)
Definition group (a b c : N) : N := (a * 65536 + b * 256 + c)%N.

Definition sextet (k : N) (n : N) : N := ((n / 64 ^ k) mod 64)%N.

Fixpoint b64encode (bs : list byte) : string :=
  match bs with
  | [] => ""
  | [a] =>
      let n := group (Byte.to_N a) 0 0 in
      String (digit (sextet 3 n)) (String (digit (sextet 2 n))
        (String pad (String pad "")))
  | [a; b] =>
      let n := group (Byte.to_N a) (Byte.to_N b) 0 in
      String (digit (sextet 3 n)) (String (digit (sextet 2 n))
        (String (digit (sextet 1 n)) (String pad "")))
  | a :: b :: c :: rest =>
      let n := group (Byte.to_N a) (Byte.to_N b) (Byte.to_N c) in
      String (digit (sextet 3 n)) (String (digit (sextet 2 n))
        (String (digit (sextet 1 n)) (String (digit (sextet 0 n))
          (b64encode rest))))
  end.

Definition octet (k : N) (n : N) : option byte := Byte.of_N ((n / 256 ^ k) mod 256)%N.

Definition ungroup (s3 s2 s1 s0 : N) : N :=
  (s3 * 262144 + s2 * 4096 + s1 * 64 + s0)%N.

(** base64.b64decode on padded input; [None] for malformed text. *)
Fixpoint b64decode (s : string) : option (list byte) :=
  match s with
  | EmptyString => Some []
  | String c3 (String c2 (String c1 (String c0 rest))) =>
      s3 ← value c3; s2 ← value c2;
      if Ascii.eqb c1 pad then
        if Ascii.eqb c0 pad then
          match rest with
          | EmptyString => a ← octet 2 (ungroup s3 s2 0 0); Some [a]
          | _ => None
          end
        else None
      else
        s1 ← value c1;
        if Ascii.eqb c0 pad then
          match rest with
          | EmptyString =>
              let n := ungroup s3 s2 s1 0 in
              a ← octet 2 n; b ← octet 1 n; Some [a; b]
          | _ => None
          end
        else
          s0 ← value c0;
          let n := ungroup s3 s2 s1 s0 in
          a ← octet 2 n; b ← octet 1 n; c ← octet 0 n;
          tl ← b64decode rest; Some (a :: b :: c :: tl)
  | _ => None
  end.

End Base64.

(** ** PIL images *)

Module PIL.

(** A pixel as the program can observe it: the three colour channels hold
    the RGB rendition of the pixel (a grey level [l] is [(l, l, l)], an
    RGBA pixel its own R, G and B bands), [chan_a] the alpha band, 255 in
    a mode that has none. *)
Record Pixel : Type := { chan_r : Z; chan_g : Z; chan_b : Z; chan_a : Z }.

Record Image : Type := {
  mode : string;
  width : Z;
  height : Z;
  getpixel : Z → Z → Pixel
}.

Definition size (im : Image) : Z * Z := (width im, height im).

(** The modes of PIL that carry an alpha band. *)
Definition alpha_modes : list string := ["RGBA"; "LA"; "PA"; "RGBa"; "La"].

Definition has_alpha (m : string) : bool := bool_decide (m ∈ alpha_modes).

(** [Image.new(mode, size, color)] for an opaque colour. *)
Definition Image_new (m : string) (sz : Z * Z) (color : Z * Z * Z) : Image :=
  let '(r, g, b) := color in
  {| mode := m; width := sz.1; height := sz.2;
     getpixel := λ _ _, {| chan_r := r; chan_g := g; chan_b := b; chan_a := 255 |} |}.

(** [im.split()[3]] of an RGBA image: the alpha band as an L image. *)
Definition split_3 (im : Image) : Image :=
  {| mode := "L"; width := width im; height := height im;
     getpixel := λ x y,
       let a := chan_a (getpixel im x y) in
       {| chan_r := a; chan_g := a; chan_b := a; chan_a := 255 |} |}.

(** Division by 255 with rounding, as libImaging's DIV255. *)
Definition div255 (a : Z) : Z :=
  let tmp := a + 128 in Z.shiftr (Z.shiftr tmp 8 + tmp) 8.

(** libImaging's BLEND8: [in1] where the mask is 0, [in2] where it is 255. *)
Definition blend8 (mask in1 in2 : Z) : Z := div255 (in1 * (255 - mask) + in2 * mask).

Definition in_box (im : Image) (x y : Z) : bool :=
  (0 <=? x) && (x <? width im) && (0 <=? y) && (y <? height im).

(** [self.paste(im, mask=mask)]: [im] blended into [self] at the origin,
    through an L mask, band by band. *)
Definition paste (self im mask : Image) : Image :=
  {| mode := mode self; width := width self; height := height self;
     getpixel := λ x y,
       let out := getpixel self x y in
       if in_box im x y then
         let src := getpixel im x y in
         let m := chan_r (getpixel mask x y) in
         {| chan_r := blend8 m (chan_r out) (chan_r src);
            chan_g := blend8 m (chan_g out) (chan_g src);
            chan_b := blend8 m (chan_b out) (chan_b src);
            chan_a := chan_a out |}
       else out |}.

(** [im.convert("RGB")]: the RGB rendition of every pixel; an alpha band
    is dropped, not blended. *)
Definition convert_RGB (im : Image) : Image :=
  {| mode := "RGB"; width := width im; height := height im;
     getpixel := λ x y,
       let p := getpixel im x y in
       {| chan_r := chan_r p; chan_g := chan_g p; chan_b := chan_b p; chan_a := 255 |} |}.

End PIL.
Export PIL.

(** ** PyMuPDF documents *)

Module Fitz.

(** An entry of [page.get_images(full=True)]; [img_info[0]] is the xref. *)
Record img_info : Type := {
  info_xref : Z;
  info_smask : Z;
  info_width : Z;
  info_height : Z
}.

(** The dictionary of [extract_image]: keys "image" and "ext". *)
Record base_image : Type := {
  bi_image : list byte;
  bi_ext : string
}.

(** A parsed document: per page, the outcome of loading the page and
    listing its images; per xref, the outcome of [extract_image]. *)
Record Document : Type := {
  doc_pages : list (result (list img_info));
  extract_image : Z → result base_image
}.

End Fitz.
Export Fitz.

(** ** The pipeline *)

(** The output entity. *)
Record ImageRecord : Type := {
  pageNumber : Z;
  imageIndex : Z;
  url : string
}.

(** Why a candidate yields no record. *)
Inductive Skip : Type :=
| ResolveFailed (e : exn)
| TooFewBytes
| DecodeFailed (e : exn)
| TooSmall
| EncodeFailed (e : exn).

Inductive Outcome : Type :=
| Accepted (data_url : string)
| Skipped (why : Skip).

(** The variables of the two loops; [emitted] is the list [images] with,
    next to each record, the xref it was made from (not part of the
    output). *)
Record LoopState : Type := {
  emitted : list (Z * ImageRecord);
  image_index : Z;
  seen_xrefs : gset Z
}.

Definition images (st : LoopState) : list ImageRecord := (emitted st).*2.

Definition sources (st : LoopState) : list Z := (emitted st).*1.

Definition initial : LoopState :=
  {| emitted := []; image_index := 0; seen_xrefs := ∅ |}.

(** Effects on the world outside the process, in the order they happen. *)
Inductive event : Type :=
| EvTmpCreate (path : string)
| EvRead
| EvWrite (path : string)
| EvOpen (path : string) (opened : bool)
| EvClose (path : string)
| EvUnlink (path : string).

(** What a trace leaves behind: the documents still open and the
    temporary files still on disk. *)
Record Leftover : Type := {
  open_documents : list string;
  temp_files : list string
}.

Definition remove_one (p : string) (l : list string) : list string :=
  match list_find (λ q, q = p) l with
  | Some (i, _) => delete i l
  | None => l
  end.

Definition after_event (w : Leftover) (e : event) : Leftover :=
  match e with
  | EvTmpCreate p => {| open_documents := open_documents w; temp_files := p :: temp_files w |}
  | EvOpen p true => {| open_documents := p :: open_documents w; temp_files := temp_files w |}
  | EvClose p => {| open_documents := remove_one p (open_documents w); temp_files := temp_files w |}
  | EvUnlink p => {| open_documents := open_documents w; temp_files := remove_one p (temp_files w) |}
  | _ => w
  end.

Definition leftover (tr : list event) : Leftover :=
  foldl after_event {| open_documents := []; temp_files := [] |} tr.

(** The response of the endpoint: a JSON body, an [HTTPException], or an
    exception no handler catches. *)
Inductive Response : Type :=
| JSONResponse (success : bool) (imgs : list ImageRecord) (totalImages : Z)
| HTTPException (status_code : Z) (detail : string)
| Unhandled (e : exn).

Record UploadFile : Type := {
  content_type : option string;
  read : result (list byte)
}.

Definition no_images_message : string :=
  "No embedded images found in this PDF. The PDF may only contain text or vector graphics.".

Section Pipeline.

(** The libraries and the operating system, as the program calls them:
    [Image.open(io.BytesIO(_))] with the pixel data loaded,
    [img.save(buffer, format, quality, method)] with the buffer read back,
    [fitz.open(path)], the name of the temporary file and writing to it. *)
Context (Image_open : list byte → result Image)
        (Image_save : Image → string → Z → Z → result (list byte))
        (fitz_open : string → result Document)
        (tmp_name : string)
        (tmp_write : list byte → result unit).

(** Lines 83-91: the colour mode before encoding. *)
Definition normalize (img_pil : Image) : Image :=
  if String.eqb (mode img_pil) "RGBA" then
    let rgb_img := Image_new "RGB" (size img_pil) (255, 255, 255) in
    paste rgb_img img_pil (split_3 img_pil)
  else if String.eqb (mode img_pil) "P" then convert_RGB img_pil
  else if negb (bool_decide (mode img_pil ∈ ["RGB"; "L"])) then convert_RGB img_pil
  else img_pil.

(** Lines 67-100: from an xref to its data URL, or the reason to skip. *)
Definition encode_embedded (pdf_document : Document) (xref : Z) : Outcome :=
  match extract_image pdf_document xref with
  | Raise e => Skipped (ResolveFailed e)
  | Ok base_image =>
      let image_bytes := bi_image base_image in
      if len image_bytes <? 100 then Skipped TooFewBytes
      else
        match Image_open image_bytes with
        | Raise e => Skipped (DecodeFailed e)
        | Ok img_pil =>
            if (width img_pil <? 10) || (height img_pil <? 10) then Skipped TooSmall
            else
              match Image_save (normalize img_pil) "WEBP" 85 6 with
              | Raise e => Skipped (EncodeFailed e)
              | Ok webp =>
                  let webp_base64 := Base64.b64encode webp in
                  Accepted ("data:image/webp;base64," +:+ webp_base64)
              end
        end
  end.

(** Lines 56-111: the body of the inner loop. *)
Definition image_step (pdf_document : Document) (page_num : Z)
    (st : LoopState) (info : img_info) : LoopState :=
  let xref := info_xref info in
  if decide (xref ∈ seen_xrefs st) then st
  else
    let seen := {[xref]} ∪ seen_xrefs st in
    match encode_embedded pdf_document xref with
    | Skipped _ =>
        {| emitted := emitted st; image_index := image_index st; seen_xrefs := seen |}
    | Accepted data_url =>
        let idx := image_index st + 1 in
        {| emitted := emitted st ++
             [(xref, {| pageNumber := page_num + 1; imageIndex := idx; url := data_url |})];
           image_index := idx;
           seen_xrefs := seen |}
    end.

(** Lines 55-111: the inner loop over the images of one page. *)
Definition image_loop (pdf_document : Document) (page_num : Z)
    (image_list : list img_info) (st : LoopState) : LoopState :=
  foldl (image_step pdf_document page_num) st image_list.

(** Lines 43-111: the loop over the pages, from page [page_num] on. *)
Fixpoint page_loop (pdf_document : Document) (pages : list (result (list img_info)))
    (page_num : Z) (st : LoopState) : result LoopState :=
  match pages with
  | [] => Ok st
  | page :: rest =>
      match page with
      | Raise e => Raise e
      | Ok image_list =>
          match image_list with
          | [] => page_loop pdf_document rest (page_num + 1) st
          | _ => page_loop pdf_document rest (page_num + 1)
                   (image_loop pdf_document page_num image_list st)
          end
      end
  end.

Definition walk (pdf_document : Document) : result LoopState :=
  page_loop pdf_document (doc_pages pdf_document) 0 initial.

(** Lines 30-121. *)
Definition extract_images_from_pdf (pdf_path : string)
    : result (list ImageRecord) * list event :=
  match fitz_open pdf_path with
  | Raise e =>
      (Raise (Exception ("Error processing PDF: " +:+ str e)), [EvOpen pdf_path false])
  | Ok pdf_document =>
      match walk pdf_document with
      | Raise e =>
          (Raise (Exception ("Error processing PDF: " +:+ str e)), [EvOpen pdf_path true])
      | Ok st =>
          let tr := [EvOpen pdf_path true; EvClose pdf_path] in
          match images st with
          | [] => (Raise (Exception no_images_message), tr)
          | imgs => (Ok imgs, tr)
          end
      end
  end.

(** Line 131. *)
Definition is_pdf (file : UploadFile) : bool :=
  match content_type file with
  | None => false
  | Some ct => negb (String.eqb ct "") && String.eqb ct "application/pdf"
  end.

(** Lines 151-154: the [except] clause. *)
Definition on_exception (e : exn) : Response :=
  let error_message := str e in
  let status_code :=
    if contains "No embedded images found" error_message then 400 else 500 in
  HTTPException status_code error_message.

(** Lines 136-154: the [try] block and its [except] clause; the middle
    component is [tmp_file_path], unbound when an earlier line raised. *)
Definition handle_upload (file : UploadFile) : Response * option string * list event :=
  match read file with
  | Raise e => (on_exception e, None, [EvRead])
  | Ok content =>
      match tmp_write content with
      | Raise e => (on_exception e, None, [EvRead; EvWrite tmp_name])
      | Ok _ =>
          let tmp_file_path := tmp_name in
          let '(r, tr) := extract_images_from_pdf tmp_file_path in
          (match r with
           | Ok imgs => JSONResponse true imgs (len imgs)
           | Raise e => on_exception e
           end, Some tmp_file_path, [EvRead; EvWrite tmp_name] ++ tr)
      end
  end.

(** Lines 125-158; the [finally] clause reads [tmp_file_path]. *)
Definition extract_images (file : UploadFile) : Response * list event :=
  if negb (is_pdf file) then (HTTPException 400 "File must be a PDF", [])
  else
    let '(resp, tmp_file_path, tr) := handle_upload file in
    match tmp_file_path with
    | None =>
        (Unhandled (Exception "cannot access local variable 'tmp_file_path' where it is not associated with a value"),
         EvTmpCreate tmp_name :: tr)
    | Some p => (resp, EvTmpCreate tmp_name :: tr ++ [EvUnlink p])
    end.

End Pipeline.

(** ** The candidates of a document *)

(** The stream of the walker: every image entry with the 0-based number
    of its page, in page order; it ends at a page that fails to load. *)
Fixpoint candidates (pages : list (result (list img_info))) (page_num : Z)
    : list (Z * img_info) :=
  match pages with
  | [] => []
  | Raise _ :: _ => []
  | Ok image_list :: rest =>
      ((λ info, (page_num, info)) <$> image_list) ++ candidates rest (page_num + 1)
  end.

(** The 1-based page of the first candidate that refers to [x]. *)
Fixpoint first_candidate (cs : list (Z * img_info)) (x : Z) : option Z :=
  match cs with
  | [] => None
  | (p, info) :: rest =>
      if decide (info_xref info = x) then Some (p + 1) else first_candidate rest x
  end.

(** The two loops as one pass over the candidates. *)
Definition run (Image_open : list byte → result Image)
    (Image_save : Image → string → Z → Z → result (list byte))
    (pdf_document : Document) (cs : list (Z * img_info)) (st : LoopState)
    : LoopState :=
  foldl (λ st c, image_step Image_open Image_save pdf_document c.1 st c.2) st cs.

Definition refers (x : Z) (page : result (list img_info)) : bool :=
  match page with
  | Ok image_list => bool_decide (x ∈ info_xref <$> image_list)
  | Raise _ => false
  end.

(** The 1-based numbers of the pages that refer to [x], ascending. *)
Fixpoint referencing_pages (pages : list (result (list img_info))) (page_num : Z)
    (x : Z) : list Z :=
  match pages with
  | [] => []
  | page :: rest =>
      (if refers x page then [page_num + 1] else []) ++
      referencing_pages rest (page_num + 1) x
  end.

(** The records made from the xref [x]. *)
Definition records_of (x : Z) (st : LoopState) : list ImageRecord :=
  (filter (λ e, e.1 = x) (emitted st)).*2.

(** Reading a data URL back: [data:image/<fmt>;base64,<data>] gives the
    format tag and the decoded bytes. *)
Fixpoint strip_prefix (p s : string) : option string :=
  match p with
  | EmptyString => Some s
  | String c p' =>
      match s with
      | EmptyString => None
      | String d s' => if Ascii.eqb c d then strip_prefix p' s' else None
      end
  end.

Fixpoint break_at (c : ascii) (s : string) : string * string :=
  match s with
  | EmptyString => (EmptyString, EmptyString)
  | String d s' =>
      if Ascii.eqb c d then (EmptyString, s)
      else let '(before, rest) := break_at c s' in (String d before, rest)
  end.

Definition parse_data_url (u : string) : option (string * list byte) :=
  rest ← strip_prefix "data:image/" u;
  let '(fmt, tail) := break_at ";"%char rest in
  b64 ← strip_prefix ";base64," tail;
  payload ← Base64.b64decode b64;
  Some (fmt, payload).

(** Pages that all load. *)
Definition loads (pages : list (result (list img_info))) : Prop :=
  Forall (λ page, ∃ image_list, page = Ok image_list) pages.

(** What holds of the loop variables after a pass over the candidates
    [cs]: the seen set is the set of xrefs met; the counter is the number
    of records; the record at position [i] has index [i + 1], carries the
    data URL of its xref and the page of that xref's first candidate; no
    xref has two records; every xref met whose image is accepted has one. *)
Record settled (Image_open : list byte → result Image)
    (Image_save : Image → string → Z → Z → result (list byte))
    (pdf_document : Document) (cs : list (Z * img_info)) (st : LoopState) : Prop := {
  settled_seen : ∀ x, x ∈ seen_xrefs st ↔ is_Some (first_candidate cs x);
  settled_index : image_index st = len (emitted st);
  settled_record : ∀ i x r, emitted st !! i = Some (x, r) →
    imageIndex r = Z.of_nat i + 1 ∧
    encode_embedded Image_open Image_save pdf_document x = Accepted (url r) ∧
    first_candidate cs x = Some (pageNumber r);
  settled_nodup : NoDup (sources st);
  settled_complete : ∀ x u,
    is_Some (first_candidate cs x) →
    encode_embedded Image_open Image_save pdf_document x = Accepted u →
    x ∈ sources st
}.
Arguments settled_seen {_ _ _ _ _} _.
Arguments settled_index {_ _ _ _ _} _.
Arguments settled_record {_ _ _ _ _} _.
Arguments settled_nodup {_ _ _ _ _} _.
Arguments settled_complete {_ _ _ _ _} _.

(** Following the specification's words: the image composited onto an
    opaque white background, the alpha channel as the blend mask, as an
    RGB buffer. *)
Definition flatten_on_white (im : Image) : Image :=
  {| mode := "RGB"; width := width im; height := height im;
     getpixel := λ x y,
       let p := getpixel im x y in
       {| chan_r := blend8 (chan_a p) 255 (chan_r p);
          chan_g := blend8 (chan_a p) 255 (chan_g p);
          chan_b := blend8 (chan_a p) 255 (chan_b p);
          chan_a := 255 |} |}.

(** ** A small world to run the pipeline in *)

Module Demo.

Definition byte_of (z : Z) : byte :=
  default x00 (Byte.of_N (Z.to_N (z `mod` 256))).

Definition mode_of_tag (b : byte) : option string :=
  match b with
  | x00 => Some "RGB"
  | x01 => Some "RGBA"
  | x02 => Some "L"
  | x03 => Some "LA"
  | x04 => Some "P"
  | _ => None
  end.

(** A flat image format: a mode tag, width, height and one pixel that
    fills the image. *)
Definition Image_open (bs : list byte) : result Image :=
  match bs with
  | m :: w :: h :: r :: g :: b :: a :: _ =>
      match mode_of_tag m with
      | Some md =>
          Ok {| mode := md;
                width := Z.of_N (Byte.to_N w);
                height := Z.of_N (Byte.to_N h);
                getpixel := λ _ _,
                  {| chan_r := Z.of_N (Byte.to_N r); chan_g := Z.of_N (Byte.to_N g);
                     chan_b := Z.of_N (Byte.to_N b); chan_a := Z.of_N (Byte.to_N a) |} |}
      | None => Raise (Exception "cannot identify image file")
      end
  | _ => Raise (Exception "cannot identify image file")
  end.

(** An encoder that writes the size, the settings and the first pixel. *)
Definition Image_save (im : Image) (format : string) (quality method : Z)
    : result (list byte) :=
  if String.eqb format "WEBP" then
    let p := getpixel im 0 0 in
    Ok [byte_of (width im); byte_of (height im); byte_of quality; byte_of method;
        byte_of (chan_r p); byte_of (chan_g p); byte_of (chan_b p)]
  else Raise (Exception "unknown file extension").

Definition flat (tag w h r g b a : byte) (padding : nat) : base_image :=
  {| bi_image := [tag; w; h; r; g; b; a] ++ replicate padding x00; bi_ext := "png" |}.

Definition entry (x : Z) : img_info :=
  {| info_xref := x; info_smask := 0; info_width := 0; info_height := 0 |}.

(** xref 7: a 200x200 RGB photo; 9: a 5x5 icon; 11: a 40-byte stub;
    13: a 64x64 half-transparent RGBA logo; other xrefs resolve to
    nothing. *)
Definition objects (x : Z) : result base_image :=
  if decide (x = 7) then Ok (flat x00 xc8 xc8 x10 x20 x30 xff 113)
  else if decide (x = 9) then Ok (flat x00 x05 x05 x10 x20 x30 xff 113)
  else if decide (x = 11) then Ok (flat x00 xc8 xc8 x10 x20 x30 xff 33)
  else if decide (x = 13) then Ok (flat x01 x40 x40 x00 x00 x00 x80 113)
  else Raise (Exception "bad xref").

(** A photo on page 1, reused on page 2 next to an icon; page 3 empty. *)
Definition doc_shared : Document :=
  {| doc_pages := [Ok [entry 7]; Ok [entry 7; entry 9]; Ok []];
     extract_image := objects |}.

(** A stub referenced on both pages. *)
Definition doc_stub : Document :=
  {| doc_pages := [Ok [entry 11]; Ok [entry 11]];
     extract_image := objects |}.

(** A logo, a photo, the logo again. *)
Definition doc_mixed : Document :=
  {| doc_pages := [Ok [entry 13; entry 9]; Ok []; Ok [entry 7; entry 13]];
     extract_image := objects |}.

(** The second page cannot be loaded. *)
Definition doc_broken : Document :=
  {| doc_pages := [Ok [entry 7]; Raise (Exception "cannot load page")];
     extract_image := objects |}.

Definition tmp : string := "/tmp/tmpk3v9.pdf".

Definition opens (d : Document) (path : string) : result Document :=
  if String.eqb path tmp then Ok d else Raise (Exception "no such file").

Definition writes (bs : list byte) : result unit := Ok ().

Definition upload (ct : string) : UploadFile :=
  {| content_type := Some ct; read := Ok [x25; x50; x44; x46] |}.

(** An LA image: one fully transparent black pixel everywhere. *)
Definition la_img : Image :=
  {| mode := "LA"; width := 16; height := 16;
     getpixel := λ _ _, {| chan_r := 0; chan_g := 0; chan_b := 0; chan_a := 0 |} |}.

(** An LA image: fully transparent mid-grey. *)
Definition la_grey : Image :=
  {| mode := "LA"; width := 16; height := 16;
     getpixel := λ _ _, {| chan_r := 100; chan_g := 100; chan_b := 100; chan_a := 0 |} |}.

(** An RGBA image, half-transparent red. *)
Definition rgba_img : Image :=
  {| mode := "RGBA"; width := 16; height := 16;
     getpixel := λ _ _, {| chan_r := 200; chan_g := 0; chan_b := 0; chan_a := 128 |} |}.

End Demo.

(** ** The debug endpoint *)

Module Debug.

(** [base_image.get(key, "unknown")]: the entry, or the string. *)
Inductive Dim : Type :=
| Pixels (n : Z)
| Unknown.

Definition get_or_unknown (entry : option Z) : Dim :=
  match entry with
  | Some n => Pixels n
  | None => Unknown
  end.

(** An entry of [page_info["images"]]. *)
Record ImageSummary : Type := {
  xref : Z;
  ext : string;
  size : Z;
  width : Dim;
  height : Dim
}.

Record PageInfo : Type := {
  pageNumber : Z;
  imageCount : Z;
  images : list ImageSummary
}.

Record DebugInfo : Type := {
  totalPages : Z;
  pages : list PageInfo
}.

Inductive Response : Type :=
| JSONResponse (content : DebugInfo)
| HTTPException (status_code : Z) (detail : string)
| Unhandled (e : exn).

Section Endpoint.

(** [fitz.open], the temporary file, and the "width" and "height" entries
    of the dictionary that [extract_image] returns for an xref ([None]
    where the key is absent). *)
Context (fitz_open : string → result Document)
        (tmp_name : string)
        (tmp_write : list byte → result unit)
        (dict_width dict_height : Z → option Z).

(** Lines 197-208: the body of the inner loop; a failure is passed over. *)
Definition summarize (pdf_document : Document) (acc : list ImageSummary)
    (info : img_info) : list ImageSummary :=
  let x := info_xref info in
  match extract_image pdf_document x with
  | Raise _ => acc
  | Ok base_image =>
      acc ++ [{| xref := x;
                 ext := bi_ext base_image;
                 size := len (bi_image base_image);
                 width := get_or_unknown (dict_width x);
                 height := get_or_unknown (dict_height x) |}]
  end.

(** Lines 188-210: one page. *)
Definition page_info (pdf_document : Document) (page_num : Z)
    (image_list : list img_info) : PageInfo :=
  {| pageNumber := page_num + 1;
     imageCount := len image_list;
     images := foldl (summarize pdf_document) [] image_list |}.

(** Lines 187-210: the loop over the pages, from page [page_num] on. *)
Fixpoint page_loop (pdf_document : Document) (rest : list (result (list img_info)))
    (page_num : Z) (acc : list PageInfo) : result (list PageInfo) :=
  match rest with
  | [] => Ok acc
  | Raise e :: _ => Raise e
  | Ok image_list :: rest' =>
      page_loop pdf_document rest' (page_num + 1)
        (acc ++ [page_info pdf_document page_num image_list])
  end.

(** Lines 181-213. *)
Definition scan (pdf_path : string) : result DebugInfo * list event :=
  match fitz_open pdf_path with
  | Raise e => (Raise e, [EvOpen pdf_path false])
  | Ok pdf_document =>
      match page_loop pdf_document (doc_pages pdf_document) 0 [] with
      | Raise e => (Raise e, [EvOpen pdf_path true])
      | Ok infos =>
          (Ok {| totalPages := len (doc_pages pdf_document); pages := infos |},
           [EvOpen pdf_path true; EvClose pdf_path])
      end
  end.

(** Lines 176-216: the [try] block and its [except] clause, with
    [tmp_file_path] as in [handle_upload]. *)
Definition handle_upload (file : UploadFile) : Response * option string * list event :=
  match read file with
  | Raise e => (HTTPException 500 (str e), None, [EvRead])
  | Ok content =>
      match tmp_write content with
      | Raise e => (HTTPException 500 (str e), None, [EvRead; EvWrite tmp_name])
      | Ok _ =>
          let tmp_file_path := tmp_name in
          let '(r, tr) := scan tmp_file_path in
          (match r with
           | Ok debug_info => JSONResponse debug_info
           | Raise e => HTTPException 500 (str e)
           end, Some tmp_file_path, [EvRead; EvWrite tmp_name] ++ tr)
      end
  end.

(** Lines 168-219. *)
Definition debug_pdf (file : UploadFile) : Response * list event :=
  if negb (is_pdf file) then (HTTPException 400 "File must be a PDF", [])
  else
    let '(resp, tmp_file_path, tr) := handle_upload file in
    match tmp_file_path with
    | None =>
        (Unhandled (Exception "cannot access local variable 'tmp_file_path' where it is not associated with a value"),
         EvTmpCreate tmp_name :: tr)
    | Some p => (resp, EvTmpCreate tmp_name :: tr ++ [EvUnlink p])
    end.

End Endpoint.

End Debug.

(** Lines 161-164. *)
Definition health_check : list (string * string) := [("status", "ok")].

(** The xrefs the pages refer to, with repetitions, in page order. *)
Definition all_xrefs (pages : list (result (list img_info))) : list Z :=
  (λ c, info_xref c.2) <$> candidates pages 0.

(** Whether [extract_image] returns for the xref. *)
Definition resolves (pdf_document : Document) (x : Z) : bool :=
  match extract_image pdf_document x with
  | Ok _ => true
  | Raise _ => false
  end.

(** The debug dictionaries of the demo objects. *)
Module DemoDebug.

Definition widths (x : Z) : option Z :=
  if decide (x = 7) then Some 200
  else if decide (x = 9) then Some 5
  else if decide (x = 13) then Some 64
  else None.

Definition heights (x : Z) : option Z := widths x.

(** Two pages that refer to the same photo and to an object that does
    not resolve. *)
Definition doc_repeat : Document :=
  {| doc_pages := [Ok [Demo.entry 7; Demo.entry 99]; Ok [Demo.entry 7]];
     extract_image := Demo.objects |}.

(** A parser whose complaint has the phrase of the empty result in it. *)
Definition refuses (path : string) : result Document :=
  Raise (Exception "No embedded images found in the cross-reference table").

(** Reading the upload fails. *)
Definition upload_unreadable : UploadFile :=
  {| content_type := Some "application/pdf";
     read := Raise (Exception "client disconnected") |}.

End DemoDebug.

(** ** The candidate stream *)

Lemma first_candidate_app cs cs' x :
  first_candidate (cs ++ cs') x =
  match first_candidate cs x with
  | Some p => Some p
  | None => first_candidate cs' x
  end.
Proof.
  induction cs as [|[p info] cs IH]; simpl; [done|].
  case_decide; done.
Qed.

Lemma first_candidate_Some cs x q :
  first_candidate cs x = Some q →
  ∃ p info, (p, info) ∈ cs ∧ info_xref info = x ∧ q = p + 1.
Proof.
  induction cs as [|[p info] cs IH]; simpl; [done|].
  case_decide.
  - intros [= <-]. exists p, info. split; [left | done].
  - intros Hq. destruct (IH Hq) as (p' & info' & Hin & Hx & Hp).
    exists p', info'. split; [by right | done].
Qed.

Lemma first_candidate_None cs x p info :
  first_candidate cs x = None → (p, info) ∈ cs → info_xref info ≠ x.
Proof.
  induction cs as [|[p' info'] cs IH]; simpl; [by intros _ ?%elem_of_nil|].
  case_decide; [done|].
  intros Hnone [[= -> ->] | Hin]%elem_of_cons; [done | by apply IH].
Qed.

Lemma candidates_range pages n :
  Forall (λ c, n ≤ c.1 < n + len pages) (candidates pages n).
Proof.
  revert n. induction pages as [|[l|e] pages IH]; intros n; simpl; [done| |done].
  apply Forall_app. split.
  - apply Forall_fmap, Forall_true. intros info. simpl. unfold len. simpl. lia.
  - eapply Forall_impl; [apply IH|]. intros c. unfold len. simpl. lia.
Qed.

Lemma candidates_sorted pages n :
  StronglySorted Z.le (candidates pages n).*1.
Proof.
  revert n. induction pages as [|[l|e] pages IH]; intros n; simpl;
    [constructor| |constructor].
  rewrite fmap_app, <- list_fmap_compose.
  induction l as [|info l IHl]; simpl; [apply IH|].
  constructor; [done|].
  apply Forall_app. split.
  - apply Forall_fmap, Forall_true. intros ?. simpl. lia.
  - apply Forall_fmap. eapply Forall_impl; [apply (candidates_range pages (n + 1))|].
    intros c. simpl. lia.
Qed.

Lemma first_candidate_page l n x rest :
  first_candidate (((λ info, (n, info)) <$> l) ++ rest) x =
  if bool_decide (x ∈ info_xref <$> l) then Some (n + 1) else first_candidate rest x.
Proof.
  induction l as [|info l IH].
  - case_bool_decide as H; [by apply elem_of_nil in H | done].
  - rewrite !fmap_cons. cbn [app first_candidate].
    destruct (decide (info_xref info = x)) as [Hx|Hx].
    + rewrite bool_decide_eq_true_2; [done | subst; left].
    + rewrite IH. rewrite (bool_decide_ext (x ∈ info_xref info :: (info_xref <$> l))
                 (x ∈ info_xref <$> l)); [done|].
      rewrite elem_of_cons. intuition congruence.
Qed.

(** The first candidate for [x] is on the first page that refers to [x]. *)
Lemma first_candidate_head pages n x :
  loads pages →
  first_candidate (candidates pages n) x = head (referencing_pages pages n x).
Proof.
  intros Hl. revert n. induction Hl as [|page pages [l ->] _ IH]; intros n; simpl; [done|].
  rewrite first_candidate_page. destruct (bool_decide _); simpl; [done | apply IH].
Qed.

Section Walk.

Context (Image_open : list byte → result Image)
        (Image_save : Image → string → Z → Z → result (list byte))
        (pdf_document : Document).

Abbreviation step := (image_step Image_open Image_save pdf_document).
Abbreviation encode := (encode_embedded Image_open Image_save pdf_document).
Abbreviation pass := (run Image_open Image_save pdf_document).
Abbreviation settled' := (settled Image_open Image_save pdf_document).

Lemma pass_app cs cs' st : pass (cs ++ cs') st = pass cs' (pass cs st).
Proof. apply foldl_app. Qed.

Lemma image_loop_pass n l st :
  image_loop Image_open Image_save pdf_document n l st =
  pass ((λ info, (n, info)) <$> l) st.
Proof.
  unfold image_loop, run. revert st.
  induction l as [|info l IH]; intros st; simpl; [done | apply IH].
Qed.

(** The page loop, when no page fails, is one pass over the candidates. *)
Lemma page_loop_pass pages n st st' :
  page_loop Image_open Image_save pdf_document pages n st = Ok st' →
  loads pages ∧ st' = pass (candidates pages n) st.
Proof.
  revert n st. induction pages as [|[l|e] pages IH]; intros n st; simpl.
  - intros [= <-]. split; [constructor | done].
  - intros H.
    assert (page_loop Image_open Image_save pdf_document pages (n + 1)
              (image_loop Image_open Image_save pdf_document n l st) = Ok st') as H'
      by (destruct l; exact H).
    destruct (IH _ _ H') as [Hl ->]. split.
    + constructor; [by exists l | done].
    + by rewrite pass_app, image_loop_pass.
  - done.
Qed.

(** *** One step of the inner loop *)

Lemma step_seen n st info :
  info_xref info ∈ seen_xrefs st → step n st info = st.
Proof. intros H. unfold image_step. by rewrite decide_True. Qed.

Lemma step_skipped n st info why :
  info_xref info ∉ seen_xrefs st →
  encode (info_xref info) = Skipped why →
  step n st info =
  {| emitted := emitted st; image_index := image_index st;
     seen_xrefs := {[info_xref info]} ∪ seen_xrefs st |}.
Proof. intros H E. unfold image_step. rewrite decide_False by done. by rewrite E. Qed.

Lemma step_accepted n st info u :
  info_xref info ∉ seen_xrefs st →
  encode (info_xref info) = Accepted u →
  step n st info =
  {| emitted := emitted st ++
       [(info_xref info,
         {| pageNumber := n + 1; imageIndex := image_index st + 1; url := u |})];
     image_index := image_index st + 1;
     seen_xrefs := {[info_xref info]} ∪ seen_xrefs st |}.
Proof. intros H E. unfold image_step. rewrite decide_False by done. by rewrite E. Qed.

Lemma step_marks n st info : info_xref info ∈ seen_xrefs (step n st info).
Proof.
  unfold image_step. case_decide; [done|].
  destruct (encode _); simpl; set_solver.
Qed.

(** *** What holds after a pass over the candidates *)

Lemma settled_initial : settled' [] initial.
Proof.
  split.
  - intros x. split; [by intros ?%not_elem_of_empty | by intros [? ?]].
  - done.
  - by intros i x r ?.
  - constructor.
  - by intros x u [? ?].
Qed.

Lemma first_candidate_snoc cs n info x :
  first_candidate (cs ++ [(n, info)]) x =
  match first_candidate cs x with
  | Some q => Some q
  | None => if decide (info_xref info = x) then Some (n + 1) else None
  end.
Proof. by rewrite first_candidate_app. Qed.

Lemma seen_grows cs (seen : gset Z) n info :
  (∀ x, x ∈ seen ↔ is_Some (first_candidate cs x)) →
  ∀ x, x ∈ {[info_xref info]} ∪ seen ↔ is_Some (first_candidate (cs ++ [(n, info)]) x).
Proof.
  intros H x. rewrite first_candidate_snoc, elem_of_union, elem_of_singleton, H.
  destruct (first_candidate cs x) as [q|].
  - split; [intros _; by eexists | intros _; right; by eexists].
  - destruct (decide (info_xref info = x)) as [->|Hne].
    + split; [intros _; by eexists | intros _; by left].
    + split; [intros [->|[? [=]]]; done | intros [? [=]]].
Qed.

Lemma settled_source cs st x :
  settled' cs st → x ∈ sources st → is_Some (first_candidate cs x).
Proof.
  intros Hs [[x' r] [-> Hin]]%list_elem_of_fmap.
  apply list_elem_of_lookup in Hin as [i Hi].
  destruct (settled_record Hs _ _ _ Hi) as (_ & _ & Hfc). simpl. by eexists.
Qed.

Lemma settled_step cs st n info :
  settled' cs st → settled' (cs ++ [(n, info)]) (step n st info).
Proof.
  intros Hs. destruct (decide (info_xref info ∈ seen_xrefs st)) as [Hin|Hout].
  - (* a duplicate: nothing changes, and the first candidates stay *)
    rewrite step_seen by done.
    assert (∀ x, first_candidate (cs ++ [(n, info)]) x = first_candidate cs x) as Hfc.
    { intros x. rewrite first_candidate_snoc.
      destruct (first_candidate cs x) eqn:E; [done|].
      case_decide as Hx; [|done]. subst x.
      apply (settled_seen Hs) in Hin. rewrite E in Hin. by destruct Hin. }
    destruct Hs as [H1 H2 H3 H4 H5].
    split; try done; intros *; rewrite ?Hfc; auto.
    eapply H5.
  - assert (first_candidate cs (info_xref info) = None) as Hnew.
    { destruct (first_candidate cs (info_xref info)) eqn:E; [|done].
      exfalso. apply Hout, (settled_seen Hs). by eexists. }
    assert (info_xref info ∉ sources st) as Hfresh.
    { intros Hsrc. apply (settled_source _ _ _ Hs) in Hsrc.
      rewrite Hnew in Hsrc. by destruct Hsrc. }
    destruct (encode (info_xref info)) as [u|why] eqn:E.
    + (* accepted: one more record *)
      rewrite (step_accepted _ _ _ u) by done.
      split; simpl.
      * apply seen_grows, Hs.
      * rewrite (settled_index Hs). unfold len. rewrite length_app. simpl. lia.
      * intros i x r Hi. rewrite first_candidate_snoc.
        apply lookup_app_Some in Hi as [Hi | [Hge Hi]].
        -- destruct (settled_record Hs _ _ _ Hi) as (? & ? & ->). done.
        -- apply list_lookup_singleton_Some in Hi as [Hi0 [= <- <-]]. simpl.
           rewrite Hnew, decide_True by done.
           rewrite (settled_index Hs). unfold len. repeat split; [lia | done].
      * unfold sources. simpl. rewrite fmap_app. simpl.
        apply NoDup_app. split; [apply (settled_nodup Hs)|].
        split; [|apply NoDup_singleton].
        intros x Hx ->%list_elem_of_singleton. done.
      * intros x u' Hx Hu'. unfold sources. simpl. rewrite fmap_app. simpl.
        apply elem_of_app. rewrite first_candidate_snoc in Hx.
        destruct (first_candidate cs x) eqn:Ex.
        -- left. eapply (settled_complete Hs); [by eexists | done].
        -- case_decide as Hd; [|by destruct Hx]. right. subst. left.
    + (* skipped: only the seen set grows *)
      rewrite (step_skipped _ _ _ why) by done.
      split; simpl.
      * apply seen_grows, Hs.
      * apply (settled_index Hs).
      * intros i x r Hi. rewrite first_candidate_snoc.
        destruct (settled_record Hs _ _ _ Hi) as (? & ? & ->). done.
      * apply (settled_nodup Hs).
      * intros x u' Hx Hu'. rewrite first_candidate_snoc in Hx.
        destruct (first_candidate cs x) eqn:Ex.
        -- eapply (settled_complete Hs); [by eexists | done].
        -- case_decide as Hd; [|by destruct Hx]. subst. congruence.
Qed.

Lemma settled_pass cs : settled' cs (pass cs initial).
Proof.
  induction cs as [|[n info] cs IH] using rev_ind.
  - apply settled_initial.
  - rewrite pass_app. simpl. by apply settled_step.
Qed.

Lemma walk_settled st :
  walk Image_open Image_save pdf_document = Ok st →
  loads (doc_pages pdf_document) ∧ settled' (candidates (doc_pages pdf_document) 0) st.
Proof.
  intros H. apply page_loop_pass in H as [Hl ->]. split; [done | apply settled_pass].
Qed.

End Walk.

(** *** The order of the records *)

Section Order.

Context (Image_open : list byte → result Image)
        (Image_save : Image → string → Z → Z → result (list byte))
        (pdf_document : Document).

Abbreviation step' := (image_step Image_open Image_save pdf_document).
Abbreviation pass' := (run Image_open Image_save pdf_document).

(** A step appends at most one record, on the current page. *)
Lemma step_images n st info :
  images (step' n st info) = images st ∨
  ∃ u, images (step' n st info) =
       images st ++ [{| pageNumber := n + 1; imageIndex := image_index st + 1; url := u |}].
Proof.
  unfold image_step. case_decide; [by left|].
  destruct (encode_embedded _ _ _ _) as [u|why]; simpl; [right | by left].
  exists u. unfold images. simpl. by rewrite fmap_app.
Qed.

Lemma pass_sorted cs : ∀ st lo,
  Forall (λ p, lo ≤ p) cs.*1 →
  StronglySorted Z.le cs.*1 →
  StronglySorted Z.le (pageNumber <$> images st) →
  Forall (λ r, pageNumber r ≤ lo + 1) (images st) →
  StronglySorted Z.le (pageNumber <$> images (pass' cs st)).
Proof.
  induction cs as [|[n info] cs IH]; intros st lo Hlo Hcs Hst Hbound; simpl; [done|].
  simpl in Hlo, Hcs.
  apply Forall_cons in Hlo as [Hn Hlo].
  apply StronglySorted_cons in Hcs as [Hle Hcs].
  apply (IH _ n); [done | done | |].
  - destruct (step_images n st info) as [-> | [u ->]]; [done|].
    rewrite fmap_app. apply StronglySorted_app_2; [|done|repeat constructor].
    intros p1 p2 [r [-> Hr]]%list_elem_of_fmap ->%list_elem_of_singleton. simpl.
    rewrite Forall_forall in Hbound. specialize (Hbound r Hr). simpl in Hbound. lia.
  - assert (Forall (λ r, pageNumber r ≤ n + 1) (images st)) as Hold.
    { eapply Forall_impl; [exact Hbound|]. intros r. simpl. lia. }
    destruct (step_images n st info) as [-> | [u ->]]; [done|].
    apply Forall_app. split; [done|]. repeat constructor. simpl. lia.
Qed.

Lemma walk_sorted st :
  walk Image_open Image_save pdf_document = Ok st →
  StronglySorted Z.le (pageNumber <$> images st).
Proof.
  intros H. apply page_loop_pass in H as [_ ->].
  apply (pass_sorted _ _ 0).
  - apply Forall_fmap. eapply Forall_impl; [apply candidates_range|].
    intros c. simpl. lia.
  - apply candidates_sorted.
  - constructor.
  - constructor.
Qed.

End Order.

(** *** The function as a whole *)

Section Whole.

Context (Image_open : list byte → result Image)
        (Image_save : Image → string → Z → Z → result (list byte))
        (fitz_open : string → result Document).

Abbreviation extract := (extract_images_from_pdf Image_open Image_save fitz_open).

(** A list is returned only from a document that opened and whose pages
    all loaded, after the document was closed; it is never empty. *)
Lemma extract_returns pdf_path imgs tr :
  extract pdf_path = (Ok imgs, tr) →
  ∃ pdf_document st,
    fitz_open pdf_path = Ok pdf_document ∧
    walk Image_open Image_save pdf_document = Ok st ∧
    imgs = images st ∧ imgs ≠ [] ∧
    tr = [EvOpen pdf_path true; EvClose pdf_path].
Proof.
  unfold extract_images_from_pdf.
  destruct (fitz_open pdf_path) as [pdf_document|e] eqn:Ho; [|done].
  destruct (walk _ _ pdf_document) as [st|e] eqn:Hw; [|done].
  destruct (images st) as [|r rs] eqn:E; [done|].
  intros [= <- <-]. exists pdf_document, st. by rewrite E.
Qed.

Lemma extract_empty pdf_path pdf_document st :
  fitz_open pdf_path = Ok pdf_document →
  walk Image_open Image_save pdf_document = Ok st →
  images st = [] →
  extract pdf_path =
    (Raise (Exception no_images_message), [EvOpen pdf_path true; EvClose pdf_path]).
Proof.
  intros Ho Hw He. unfold extract_images_from_pdf. by rewrite Ho, Hw, He.
Qed.

End Whole.

(** ** Base64: decoding inverts encoding *)

Module Base64Facts.
Import Base64.

Lemma digit_value_nat (k : nat) :
  (k < 64)%nat →
  value (digit (N.of_nat k)) = Some (N.of_nat k) ∧
  Ascii.eqb (digit (N.of_nat k)) pad = false.
Proof.
  intros Hk. do 64 (destruct k as [|k]; [by vm_compute|]). lia.
Qed.

Lemma value_digit n : (n < 64)%N → value (digit n) = Some n.
Proof.
  intros H. rewrite <- (N2Nat.id n). apply digit_value_nat. lia.
Qed.

Lemma digit_not_pad n : (n < 64)%N → Ascii.eqb (digit n) pad = false.
Proof.
  intros H. rewrite <- (N2Nat.id n). apply digit_value_nat. lia.
Qed.

Lemma sextet_lt k n : (sextet k n < 64)%N.
Proof. unfold sextet. by apply N.mod_lt. Qed.

Lemma sextets_of n :
  (n < 16777216)%N →
  ungroup (sextet 3 n) (sextet 2 n) (sextet 1 n) (sextet 0 n) = n.
Proof.
  intros Hn. unfold ungroup, sextet.
  change (64 ^ 3)%N with (64 * 64 * 64)%N. change (64 ^ 2)%N with (64 * 64)%N.
  change (64 ^ 1)%N with 64%N. change (64 ^ 0)%N with 1%N.
  rewrite N.div_1_r, <- !N.Div0.div_div.
  pose proof (N.div_mod' n 64) as H0.
  pose proof (N.div_mod' (n / 64) 64) as H1.
  pose proof (N.div_mod' (n / 64 / 64) 64) as H2.
  pose proof (N.mod_lt n 64) as L0.
  pose proof (N.mod_lt (n / 64) 64) as L1.
  pose proof (N.mod_lt (n / 64 / 64) 64) as L2.
  assert (n / 64 / 64 / 64 < 64)%N as L3.
  { rewrite !N.Div0.div_div. apply N.Div0.div_lt_upper_bound. exact Hn. }
  rewrite (N.mod_small _ _ L3).
  generalize dependent (n mod 64)%N. generalize dependent ((n / 64) mod 64)%N.
  generalize dependent ((n / 64 / 64) mod 64)%N.
  generalize dependent (n / 64 / 64 / 64)%N. generalize dependent (n / 64 / 64)%N.
  generalize dependent (n / 64)%N.
  intros. lia.
Qed.

Lemma octets_of a b c :
  octet 2 (group (Byte.to_N a) (Byte.to_N b) (Byte.to_N c)) = Some a ∧
  octet 1 (group (Byte.to_N a) (Byte.to_N b) (Byte.to_N c)) = Some b ∧
  octet 0 (group (Byte.to_N a) (Byte.to_N b) (Byte.to_N c)) = Some c.
Proof.
  pose proof (Byte.to_N_bounded a). pose proof (Byte.to_N_bounded b).
  pose proof (Byte.to_N_bounded c).
  unfold octet, group. change (256 ^ 2)%N with 65536%N.
  change (256 ^ 1)%N with 256%N. change (256 ^ 0)%N with 1%N.
  set (x := Byte.to_N a) in *. set (y := Byte.to_N b) in *. set (z := Byte.to_N c) in *.
  assert (((x * 65536 + y * 256 + z) / 65536) mod 256 = x)%N as ->.
  { rewrite <- (N.div_unique (x * 65536 + y * 256 + z) 65536 x (y * 256 + z))%N by lia.
    apply N.mod_small. lia. }
  assert (((x * 65536 + y * 256 + z) / 256) mod 256 = y)%N as ->.
  { rewrite <- (N.div_unique (x * 65536 + y * 256 + z) 256 (x * 256 + y) z)%N by lia.
    symmetry. apply (N.mod_unique _ _ x); lia. }
  assert (((x * 65536 + y * 256 + z) / 1) mod 256 = z)%N as ->.
  { rewrite N.div_1_r. symmetry. apply (N.mod_unique _ _ (x * 256 + y)); lia. }
  unfold x, y, z. by rewrite !Byte.of_to_N.
Qed.

Lemma group_lt a b c :
  (group (Byte.to_N a) (Byte.to_N b) (Byte.to_N c) < 16777216)%N.
Proof.
  pose proof (Byte.to_N_bounded a). pose proof (Byte.to_N_bounded b).
  pose proof (Byte.to_N_bounded c). unfold group. lia.
Qed.


Lemma list_ind3 {A} (P : list A → Prop) :
  P [] → (∀ a, P [a]) → (∀ a b, P [a; b]) →
  (∀ a b c l, P l → P (a :: b :: c :: l)) → ∀ l, P l.
Proof.
  intros H0 H1 H2 H3 l.
  cut (P l ∧ (∀ a, P (a :: l)) ∧ (∀ a b, P (a :: b :: l))); [by intros [? _]|].
  induction l as [|c l (IH0 & IH1 & IH2)]; [done|].
  split; [apply IH1 | split; [intros a; apply IH2 | intros a b; by apply H3]].
Qed.

Lemma decode_quad s3 s2 s1 s0 rest :
  (s3 < 64)%N → (s2 < 64)%N → (s1 < 64)%N → (s0 < 64)%N →
  b64decode (String (digit s3) (String (digit s2) (String (digit s1)
              (String (digit s0) rest)))) =
  (a ← octet 2 (ungroup s3 s2 s1 s0); b ← octet 1 (ungroup s3 s2 s1 s0);
   c ← octet 0 (ungroup s3 s2 s1 s0); tl ← b64decode rest; Some (a :: b :: c :: tl)).
Proof.
  intros H3 H2 H1 H0. cbn [b64decode].
  rewrite !value_digit, !digit_not_pad by done. done.
Qed.

Lemma decode_triple s3 s2 s1 :
  (s3 < 64)%N → (s2 < 64)%N → (s1 < 64)%N →
  b64decode (String (digit s3) (String (digit s2) (String (digit s1)
              (String pad EmptyString)))) =
  (a ← octet 2 (ungroup s3 s2 s1 0); b ← octet 1 (ungroup s3 s2 s1 0); Some [a; b]).
Proof.
  intros H3 H2 H1. cbn [b64decode].
  rewrite !value_digit, !digit_not_pad by done. done.
Qed.

Lemma decode_pair s3 s2 :
  (s3 < 64)%N → (s2 < 64)%N →
  b64decode (String (digit s3) (String (digit s2) (String pad
              (String pad EmptyString)))) =
  (a ← octet 2 (ungroup s3 s2 0 0); Some [a]).
Proof.
  intros H3 H2. cbn [b64decode].
  rewrite !value_digit by done. done.
Qed.

Lemma sextet_0_zero x y : sextet 0 (group x y 0) = 0%N.
Proof.
  unfold sextet, group. change (64 ^ 0)%N with 1%N. rewrite N.div_1_r.
  symmetry. apply (N.mod_unique _ _ (x * 1024 + y * 4)); lia.
Qed.

Lemma sextet_1_zero x : sextet 1 (group x 0 0) = 0%N.
Proof.
  unfold sextet, group. change (64 ^ 1)%N with 64%N.
  rewrite <- (N.div_unique (x * 65536 + 0 * 256 + 0) 64 (x * 1024) 0)%N by lia.
  symmetry. apply (N.mod_unique _ _ (x * 16)); lia.
Qed.

(** Decoding the encoded text gives the bytes back. *)
Lemma b64_roundtrip bs : b64decode (b64encode bs) = Some bs.
Proof.
  induction bs as [|a|a b|a b c l IH] using list_ind3.
  - done.
  - cbn [b64encode]. rewrite decode_pair by apply sextet_lt.
    pose proof (sextets_of _ (group_lt a x00 x00)) as Hn.
    change (Byte.to_N x00) with 0%N in Hn.
    rewrite sextet_1_zero, sextet_0_zero in Hn. rewrite Hn.
    destruct (octets_of a x00 x00) as (Ha & _ & _).
    change (Byte.to_N x00) with 0%N in Ha. by rewrite Ha.
  - cbn [b64encode]. rewrite decode_triple by apply sextet_lt.
    pose proof (sextets_of _ (group_lt a b x00)) as Hn.
    change (Byte.to_N x00) with 0%N in Hn.
    rewrite sextet_0_zero in Hn. rewrite Hn.
    destruct (octets_of a b x00) as (Ha & Hb & _).
    change (Byte.to_N x00) with 0%N in Ha, Hb. by rewrite Ha, Hb.
  - cbn [b64encode]. rewrite decode_quad by apply sextet_lt.
    rewrite (sextets_of _ (group_lt a b c)).
    destruct (octets_of a b c) as (-> & -> & ->). cbn. by rewrite IH.
Qed.

End Base64Facts.

(** ** Accepted and rejected images *)

Section Filter.

Context (Image_open : list byte → result Image)
        (Image_save : Image → string → Z → Z → result (list byte))
        (pdf_document : Document).

(** An accepted xref resolved, passed both floors, decoded and encoded. *)
Lemma encode_accepted x u :
  encode_embedded Image_open Image_save pdf_document x = Accepted u →
  ∃ bi img webp,
    extract_image pdf_document x = Ok bi ∧
    100 ≤ len (bi_image bi) ∧
    Image_open (bi_image bi) = Ok img ∧
    10 ≤ width img ∧ 10 ≤ height img ∧
    Image_save (normalize img) "WEBP" 85 6 = Ok webp ∧
    u = "data:image/webp;base64," +:+ Base64.b64encode webp.
Proof.
  unfold encode_embedded.
  destruct (extract_image pdf_document x) as [bi|e]; [|done].
  destruct (len (bi_image bi) <? 100) eqn:Hlen; [done|].
  destruct (Image_open (bi_image bi)) as [img|e] eqn:Hopen; [|done].
  destruct ((width img <? 10) || (height img <? 10)) eqn:Hdim; [done|].
  destruct (Image_save _ _ _ _) as [webp|e] eqn:Hsave; [|done].
  intros [= <-]. exists bi, img, webp.
  apply orb_false_iff in Hdim as [Hw Hh].
  repeat split; try done; lia.
Qed.

(** An image under a floor is skipped. *)
Lemma encode_floor x bi :
  extract_image pdf_document x = Ok bi →
  (len (bi_image bi) < 100 ∨
   ∃ img, Image_open (bi_image bi) = Ok img ∧ (width img < 10 ∨ height img < 10)) →
  ∃ why, encode_embedded Image_open Image_save pdf_document x = Skipped why.
Proof.
  intros Hbi Hsmall.
  destruct (encode_embedded Image_open Image_save pdf_document x) as [u|why] eqn:E;
    [|by exists why].
  apply encode_accepted in E as (bi' & img & webp & Hbi' & Hlen & Hopen & Hw & Hh & _).
  rewrite Hbi in Hbi'. injection Hbi' as <-.
  destruct Hsmall as [? | (img' & Hopen' & Hdim)]; [lia|].
  rewrite Hopen in Hopen'. injection Hopen' as <-. lia.
Qed.

End Filter.

(** *** The records of one xref *)

Lemma filter_source_absent (l : list (Z * ImageRecord)) x :
  x ∉ l.*1 → filter (λ e, e.1 = x) l = [].
Proof.
  induction l as [|[y r] l IH]; [done|].
  rewrite fmap_cons, not_elem_of_cons. simpl. intros [Hne Hout].
  rewrite filter_cons_False by (simpl; congruence). by apply IH.
Qed.

Lemma filter_source_unique (l : list (Z * ImageRecord)) x r :
  NoDup l.*1 → (x, r) ∈ l → filter (λ e, e.1 = x) l = [(x, r)].
Proof.
  induction l as [|[y r'] l IH]; [by intros _ ?%elem_of_nil|].
  rewrite fmap_cons. simpl. intros [Hy Hnd]%NoDup_cons [[= -> ->] | Hin]%elem_of_cons.
  - rewrite filter_cons_True by done. by rewrite filter_source_absent.
  - assert (y ≠ x) as Hne.
    { intros ->. apply Hy. apply list_elem_of_fmap. by exists (x, r). }
    rewrite filter_cons_False by (simpl; congruence). by apply IH.
Qed.

(** ** Reading a data URL back *)

Lemma strip_prefix_app p s : strip_prefix p (p +:+ s) = Some s.
Proof.
  induction p as [|c p IH]; [done|].
  change (String c p +:+ s) with (String c (p +:+ s)).
  cbn [strip_prefix]. by rewrite Ascii.eqb_refl.
Qed.

Lemma break_at_webp s :
  break_at ";"%char ("webp" +:+ (";base64," +:+ s)) = ("webp", ";base64," +:+ s).
Proof. reflexivity. Qed.

Lemma parse_webp_url webp :
  parse_data_url ("data:image/webp;base64," +:+ Base64.b64encode webp) =
  Some ("webp", webp).
Proof.
  unfold parse_data_url.
  change ("data:image/webp;base64," +:+ Base64.b64encode webp)
    with ("data:image/" +:+ ("webp" +:+ (";base64," +:+ Base64.b64encode webp))).
  rewrite strip_prefix_app. cbn [mbind option_bind].
  rewrite break_at_webp, strip_prefix_app. cbn [mbind option_bind].
  by rewrite Base64Facts.b64_roundtrip.
Qed.

(** ** Properties of the extraction *)

Section Extraction.

Context (Image_open : list byte → result Image)
        (Image_save : Image → string → Z → Z → result (list byte))
        (fitz_open : string → result Document).

Abbreviation walk_ := (walk Image_open Image_save).
Abbreviation encode_ := (encode_embedded Image_open Image_save).
Abbreviation step_ := (image_step Image_open Image_save).
Abbreviation pass_ := (run Image_open Image_save).
Abbreviation extract_ := (extract_images_from_pdf Image_open Image_save fitz_open).

Lemma step_seen_mono pdf_document n st info x :
  x ∈ seen_xrefs st → x ∈ seen_xrefs (step_ pdf_document n st info).
Proof.
  intros Hx. unfold image_step. case_decide; [done|].
  destruct (encode_ _ _); simpl; apply elem_of_union; by right.
Qed.

Lemma pass_seen_mono pdf_document cs st x :
  x ∈ seen_xrefs st → x ∈ seen_xrefs (pass_ pdf_document cs st).
Proof.
  revert st. induction cs as [|[n info] cs IH]; intros st Hx; [done|].
  simpl. by apply IH, step_seen_mono.
Qed.

(** The record of an xref, if there is one, is where the invariant puts it. *)
Lemma source_record pdf_document cs st x :
  settled Image_open Image_save pdf_document cs st →
  x ∈ sources st →
  ∃ r, (x, r) ∈ emitted st ∧
       encode_ pdf_document x = Accepted (url r) ∧
       first_candidate cs x = Some (pageNumber r).
Proof.
  intros Hs [[x' r] [-> Hin]]%list_elem_of_fmap. simpl.
  pose proof Hin as [i Hi]%list_elem_of_lookup.
  destruct (settled_record Hs _ _ _ Hi) as (_ & Hu & Hp). by exists r.
Qed.

Lemma skipped_no_record pdf_document cs st x why :
  settled Image_open Image_save pdf_document cs st →
  encode_ pdf_document x = Skipped why →
  (x ∉ sources st) ∧ records_of x st = [].
Proof.
  intros Hs Hskip.
  assert (x ∉ sources st) as Hout.
  { intros Hx. destruct (source_record _ _ _ _ Hs Hx) as (r & _ & Hu & _). congruence. }
  split; [done|]. unfold records_of. by rewrite filter_source_absent.
Qed.

(** C1, as amended: no two records of a result share an image reference;
    an image resource referenced on one or more pages has exactly one
    record when its image is accepted (it resolves, passes the size and
    dimension floors, decodes and encodes), with the page number of the
    first page that refers to it, and no record otherwise. *)
Theorem one_record_per_accepted_image pdf_document st :
  walk_ pdf_document = Ok st →
  NoDup (sources st) ∧
  ∀ x p ps,
    referencing_pages (doc_pages pdf_document) 0 x = p :: ps →
    match encode_ pdf_document x with
    | Accepted u =>
        ∃ i, records_of x st = [{| pageNumber := p; imageIndex := i; url := u |}]
    | Skipped _ => records_of x st = []
    end.
Proof.
  intros [Hl Hs]%walk_settled. split; [apply (settled_nodup Hs)|].
  intros x p ps Hpages.
  assert (first_candidate (candidates (doc_pages pdf_document) 0) x = Some p) as Hfirst.
  { rewrite first_candidate_head by done. by rewrite Hpages. }
  destruct (encode_ pdf_document x) as [u|why] eqn:E.
  - assert (x ∈ sources st) as Hx.
    { eapply (settled_complete Hs); [by rewrite Hfirst | done]. }
    destruct (source_record _ _ _ _ Hs Hx) as (r & Hin & Hu & Hp).
    exists (imageIndex r). unfold records_of.
    rewrite (filter_source_unique _ _ r) by (done || apply (settled_nodup Hs)).
    destruct r as [pn ix ur]. simpl in *. congruence.
  - by eapply skipped_no_record.
Qed.

(** C3: a candidate whose raw bytes are fewer than 100, or whose decoded
    width or height is under 10, has no record in the result. *)
Theorem small_images_never_emitted pdf_document st x bi :
  walk_ pdf_document = Ok st →
  extract_image pdf_document x = Ok bi →
  (len (bi_image bi) < 100 ∨
   ∃ img, Image_open (bi_image bi) = Ok img ∧ (width img < 10 ∨ height img < 10)) →
  (x ∉ sources st) ∧ records_of x st = [].
Proof.
  intros [_ Hs]%walk_settled Hbi Hsmall.
  destruct (encode_floor Image_open Image_save _ _ _ Hbi Hsmall) as [why Hskip].
  by eapply skipped_no_record.
Qed.

(** C5: the image indices of a returned list are 1, 2, ..., its length,
    in list order; a candidate that adds no record leaves the counter
    where it was. *)
Theorem image_index_sequence pdf_path imgs tr :
  extract_ pdf_path = (Ok imgs, tr) →
  imageIndex <$> imgs = seqZ 1 (len imgs) ∧
  ∀ pdf_document n st info,
    images (step_ pdf_document n st info) = images st →
    image_index (step_ pdf_document n st info) = image_index st.
Proof.
  intros (pdf_document & st & _ & [_ Hs]%walk_settled & -> & _ & _)%extract_returns.
  split.
  - apply list_eq. intros i. rewrite list_lookup_fmap. unfold images, len.
    rewrite list_lookup_fmap, length_fmap.
    destruct (emitted st !! i) as [[x r]|] eqn:Hi; simpl.
    + destruct (settled_record Hs _ _ _ Hi) as (-> & _ & _).
      apply lookup_lt_Some in Hi.
      rewrite lookup_seqZ_lt by lia. f_equal. lia.
    + apply lookup_ge_None in Hi. symmetry. apply lookup_seqZ_ge. lia.
  - intros doc n st' info. unfold image_step. case_decide; [done|].
    destruct (encode_ _ _); [|done]. unfold images. simpl.
    rewrite fmap_app. intros Heq%(f_equal length).
    rewrite length_app in Heq. simpl in Heq. lia.
Qed.


(** C9: an xref is in the seen set after its first candidate whatever
    came of it, so every later candidate with the same xref, on any page,
    leaves the loop variables as they are; at the end every xref of the
    document is in the seen set, and an xref whose image is skipped has no
    record in the result. *)
Theorem rejected_never_retried pdf_document :
  (∀ n st info, info_xref info ∈ seen_xrefs (step_ pdf_document n st info)) ∧
  (∀ n st info cs n' info',
     info_xref info' = info_xref info →
     let st1 := pass_ pdf_document cs (step_ pdf_document n st info) in
     step_ pdf_document n' st1 info' = st1) ∧
  (∀ st x p ps,
     walk_ pdf_document = Ok st →
     referencing_pages (doc_pages pdf_document) 0 x = p :: ps →
     x ∈ seen_xrefs st) ∧
  (∀ st x why,
     walk_ pdf_document = Ok st →
     encode_ pdf_document x = Skipped why →
     (x ∉ sources st) ∧ records_of x st = []).
Proof.
  repeat split.
  - intros n st info. apply step_marks.
  - intros n st info cs n' info' Hx st1. apply step_seen. rewrite Hx.
    apply pass_seen_mono, step_marks.
  - intros st x p ps [Hl Hs]%walk_settled E.
    apply (settled_seen Hs). rewrite first_candidate_head, E by done. by eexists.
  - eapply skipped_no_record; [|done]. by apply walk_settled.
  - eapply skipped_no_record; [|done]. by apply walk_settled.
Qed.

(** C10: the page numbers of a returned list never decrease along the
    list, and each lies between 1 and the number of pages. *)
Theorem page_numbers_ascending pdf_path pdf_document imgs tr :
  fitz_open pdf_path = Ok pdf_document →
  extract_ pdf_path = (Ok imgs, tr) →
  StronglySorted Z.le (pageNumber <$> imgs) ∧
  Forall (λ r, 1 ≤ pageNumber r ≤ len (doc_pages pdf_document)) imgs.
Proof.
  intros Hopen (doc & st & Hopen' & Hwalk & -> & _ & _)%extract_returns.
  rewrite Hopen in Hopen'. injection Hopen' as <-.
  split; [by eapply walk_sorted|].
  apply walk_settled in Hwalk as [_ Hs].
  apply Forall_forall. intros r [[x r'] [-> Hin]]%list_elem_of_fmap. simpl.
  apply list_elem_of_lookup in Hin as [i Hi].
  destruct (settled_record Hs _ _ _ Hi) as (_ & _ & Hfirst).
  apply first_candidate_Some in Hfirst as (p & info & Hc & _ & ->).
  pose proof (candidates_range (doc_pages pdf_document) 0) as Hr.
  rewrite Forall_forall in Hr. specialize (Hr _ Hc). simpl in Hr. lia.
Qed.

End Extraction.

(** ** Properties of the endpoint *)

Section Endpoint.

Context (Image_open : list byte → result Image)
        (Image_save : Image → string → Z → Z → result (list byte))
        (fitz_open : string → result Document)
        (tmp_name : string)
        (tmp_write : list byte → result unit).

Abbreviation pipeline := (extract_images_from_pdf Image_open Image_save fitz_open).
Abbreviation endpoint :=
  (extract_images Image_open Image_save fitz_open tmp_name tmp_write).

Lemma is_pdf_true file :
  content_type file = Some "application/pdf" → is_pdf file = true.
Proof. intros H. unfold is_pdf. by rewrite H. Qed.

Lemma is_pdf_false file :
  content_type file ≠ Some "application/pdf" → is_pdf file = false.
Proof.
  intros H. unfold is_pdf. destruct (content_type file) as [ct|]; [|done].
  destruct (String.eqb ct "application/pdf") eqn:E; [|by rewrite andb_false_r].
  apply String.eqb_eq in E. congruence.
Qed.

Lemma remove_one_head p l : remove_one p (p :: l) = l.
Proof. unfold remove_one. simpl. by rewrite decide_True. Qed.

(** The endpoint once the upload is stored and the pipeline has run. *)
Lemma endpoint_stored file content :
  content_type file = Some "application/pdf" →
  read file = Ok content →
  tmp_write content = Ok () →
  endpoint file =
    (match (pipeline tmp_name).1 with
     | Ok imgs => JSONResponse true imgs (len imgs)
     | Raise e => on_exception e
     end,
     EvTmpCreate tmp_name ::
       ([EvRead; EvWrite tmp_name] ++ (pipeline tmp_name).2) ++ [EvUnlink tmp_name]).
Proof.
  intros Hct Hread Hwrite. unfold extract_images, handle_upload.
  rewrite (is_pdf_true _ Hct), Hread, Hwrite. simpl.
  by destruct (pipeline tmp_name) as [r tr].
Qed.

(** C2: when no image survives, the pipeline raises the fixed message,
    never returning an empty list, and the endpoint answers 400 with that
    message as detail. *)
Theorem empty_result_is_client_error file content pdf_document st :
  content_type file = Some "application/pdf" →
  read file = Ok content →
  tmp_write content = Ok () →
  fitz_open tmp_name = Ok pdf_document →
  walk Image_open Image_save pdf_document = Ok st →
  images st = [] →
  (pipeline tmp_name).1 =
    Raise (Exception "No embedded images found in this PDF. The PDF may only contain text or vector graphics.") ∧
  (endpoint file).1 =
    HTTPException 400 "No embedded images found in this PDF. The PDF may only contain text or vector graphics." ∧
  ∀ pdf_path tr, pipeline pdf_path ≠ (Ok [], tr).
Proof.
  intros Hct Hread Hwrite Hopen Hwalk Hempty.
  pose proof (extract_empty Image_open Image_save fitz_open _ _ _ Hopen Hwalk Hempty) as Hp.
  repeat split.
  - by rewrite Hp.
  - rewrite (endpoint_stored _ _ Hct Hread Hwrite), Hp. reflexivity.
  - intros pdf_path tr (_ & _ & _ & _ & _ & Hne & _)%extract_returns. done.
Qed.

(** C6, where it fails: a document that opened and then raised while its
    pages were walked is still open when the request returns; the
    temporary file is gone. *)
Theorem document_left_open_on_page_error file content pdf_document e :
  content_type file = Some "application/pdf" →
  read file = Ok content →
  tmp_write content = Ok () →
  fitz_open tmp_name = Ok pdf_document →
  walk Image_open Image_save pdf_document = Raise e →
  (endpoint file).2 =
    [EvTmpCreate tmp_name; EvRead; EvWrite tmp_name; EvOpen tmp_name true;
     EvUnlink tmp_name] ∧
  leftover (endpoint file).2 = {| open_documents := [tmp_name]; temp_files := [] |}.
Proof.
  intros Hct Hread Hwrite Hopen Hwalk.
  assert ((endpoint file).2 =
    [EvTmpCreate tmp_name; EvRead; EvWrite tmp_name; EvOpen tmp_name true;
     EvUnlink tmp_name]) as Htr.
  { rewrite (endpoint_stored _ _ Hct Hread Hwrite).
    unfold extract_images_from_pdf. by rewrite Hopen, Hwalk. }
  split; [done|]. rewrite Htr. unfold leftover. simpl.
  by rewrite remove_one_head.
Qed.

(** When the pages are walked to the end, with or without records, the
    document is closed and the temporary file deleted. *)
Lemma released_after_walk file content pdf_document st :
  content_type file = Some "application/pdf" →
  read file = Ok content →
  tmp_write content = Ok () →
  fitz_open tmp_name = Ok pdf_document →
  walk Image_open Image_save pdf_document = Ok st →
  leftover (endpoint file).2 = {| open_documents := []; temp_files := [] |}.
Proof.
  intros Hct Hread Hwrite Hopen Hwalk.
  rewrite (endpoint_stored _ _ Hct Hread Hwrite).
  unfold extract_images_from_pdf. rewrite Hopen, Hwalk.
  destruct (images st); unfold leftover; simpl; by rewrite !remove_one_head.
Qed.

(** When reading the upload raises, [tmp_file_path] is unbound in the
    [finally] clause and the temporary file stays on disk. *)
Lemma temp_file_left_when_read_raises file e :
  content_type file = Some "application/pdf" →
  read file = Raise e →
  leftover (endpoint file).2 = {| open_documents := []; temp_files := [tmp_name] |}.
Proof.
  intros Hct Hread. unfold extract_images, handle_upload.
  by rewrite (is_pdf_true _ Hct), Hread.
Qed.

(** C7: an upload whose content type is not application/pdf is answered
    400 "File must be a PDF" with no effect on the world: nothing is
    read, stored, opened or deleted. *)
Theorem wrong_content_type_rejected file :
  content_type file ≠ Some "application/pdf" →
  extract_images Image_open Image_save fitz_open tmp_name tmp_write file =
    (HTTPException 400 "File must be a PDF", []).
Proof.
  intros H. unfold extract_images. by rewrite (is_pdf_false _ H).
Qed.

End Endpoint.

(** ** Colour normalisation *)

Lemma blend8_transparent c : blend8 0 255 c = 255.
Proof. unfold blend8. by rewrite Z.mul_0_r. Qed.

Lemma blend8_opaque c : 0 ≤ c ≤ 255 → blend8 255 255 c = c.
Proof.
  intros Hc.
  assert (Forall (λ c, blend8 255 255 c = c) (seqZ 0 256)) as Hall.
  { apply (bool_decide_unpack _). by vm_compute. }
  rewrite Forall_forall in Hall. apply Hall, elem_of_seqZ. lia.
Qed.

Lemma normalize_mode img :
  mode (normalize img) = "RGB" ∨ mode (normalize img) = "L".
Proof.
  unfold normalize.
  destruct (String.eqb (mode img) "RGBA"); [by left|].
  destruct (String.eqb (mode img) "P"); [by left|].
  case_bool_decide as Hm; simpl; [|by left].
  apply elem_of_cons in Hm as [->|Hm]; [by left|].
  apply list_elem_of_singleton in Hm as ->. by right.
Qed.

Lemma other_alpha_modes_converted img :
  has_alpha (mode img) = true → mode img ≠ "RGBA" → normalize img = convert_RGB img.
Proof.
  intros Ha Hm. unfold has_alpha, alpha_modes in Ha.
  apply bool_decide_eq_true_1 in Ha. unfold normalize.
  repeat (apply elem_of_cons in Ha as [Ha | Ha]; [rewrite Ha in *; done|]).
  by apply elem_of_nil in Ha.
Qed.

(** C4, as amended: an image in mode RGBA is composited onto an opaque
    white background with its alpha band as the mask, giving an RGB image
    of the same size: where alpha is 0 the pixel is white, where alpha is
    255 it keeps its colour; an image in another mode with an alpha band
    (LA, PA, RGBa, La) goes through the generic conversion to RGB, which
    keeps the colour of every pixel and drops the alpha band without
    blending; and whatever the mode of the input, the normalised image is
    in mode RGB or L, a mode without alpha band. *)
Theorem rgba_flattened_onto_white img :
  (mode img = "RGBA" →
   mode (normalize img) = "RGB" ∧
   size (normalize img) = size img ∧
   ∀ x y, in_box img x y = true →
     let p := getpixel img x y in
     let q := getpixel (normalize img) x y in
     q = getpixel (flatten_on_white img) x y ∧
     (chan_a p = 0 → q = {| chan_r := 255; chan_g := 255; chan_b := 255; chan_a := 255 |}) ∧
     (chan_a p = 255 →
      0 ≤ chan_r p ≤ 255 → 0 ≤ chan_g p ≤ 255 → 0 ≤ chan_b p ≤ 255 →
      q = {| chan_r := chan_r p; chan_g := chan_g p; chan_b := chan_b p; chan_a := 255 |})) ∧
  (has_alpha (mode img) = true → mode img ≠ "RGBA" →
   normalize img = convert_RGB img ∧
   mode (normalize img) = "RGB" ∧
   size (normalize img) = size img ∧
   ∀ x y,
     let p := getpixel img x y in
     getpixel (normalize img) x y =
       {| chan_r := chan_r p; chan_g := chan_g p; chan_b := chan_b p; chan_a := 255 |}) ∧
  (mode (normalize img) = "RGB" ∨ mode (normalize img) = "L") ∧
  has_alpha (mode (normalize img)) = false.
Proof.
  split; [|split; [|split]].
  - intros Hm. unfold normalize. rewrite Hm. simpl.
    split; [done|]. split; [done|].
    intros x y Hbox. rewrite Hbox. simpl. split; [done|]. split.
    + intros ->. by rewrite !blend8_transparent.
    + intros -> Hr Hg Hb. by rewrite !blend8_opaque.
  - intros Ha Hm. rewrite (other_alpha_modes_converted _ Ha Hm). done.
  - apply normalize_mode.
  - by destruct (normalize_mode img) as [-> | ->].
Qed.

(** ** Worked examples *)

Lemma one_record_per_accepted_image_witness :
  ∃ st, walk Demo.Image_open Demo.Image_save Demo.doc_mixed = Ok st ∧
        NoDup (sources st) ∧
        ∀ x p ps,
          referencing_pages (doc_pages Demo.doc_mixed) 0 x = p :: ps →
          match encode_embedded Demo.Image_open Demo.Image_save Demo.doc_mixed x with
          | Accepted u =>
              ∃ i, records_of x st = [{| pageNumber := p; imageIndex := i; url := u |}]
          | Skipped _ => records_of x st = []
          end.
Proof.
  eexists. split; [vm_compute; reflexivity|].
  apply (one_record_per_accepted_image Demo.Image_open Demo.Image_save Demo.doc_mixed).
  vm_compute. reflexivity.
Defined.

Lemma one_record_per_image_fails :
  ¬ (∀ st x p ps,
       walk Demo.Image_open Demo.Image_save Demo.doc_stub = Ok st →
       referencing_pages (doc_pages Demo.doc_stub) 0 x = p :: ps →
       ∃ i u, records_of x st = [{| pageNumber := p; imageIndex := i; url := u |}]).
Proof.
  intros H.
  assert (∃ st, walk Demo.Image_open Demo.Image_save Demo.doc_stub = Ok st ∧
                records_of 11 st = []) as (st & Hw & Hr)
    by (eexists; split; vm_compute; reflexivity).
  destruct (H st 11 1 [2] Hw eq_refl) as (i & u & Hr').
  rewrite Hr in Hr'. discriminate Hr'.
Qed.

Lemma empty_result_is_client_error_witness :
  ∃ st,
    walk Demo.Image_open Demo.Image_save Demo.doc_stub = Ok st ∧ images st = [] ∧
    (extract_images_from_pdf Demo.Image_open Demo.Image_save
       (Demo.opens Demo.doc_stub) Demo.tmp).1 =
      Raise (Exception "No embedded images found in this PDF. The PDF may only contain text or vector graphics.") ∧
    (extract_images Demo.Image_open Demo.Image_save (Demo.opens Demo.doc_stub)
       Demo.tmp Demo.writes (Demo.upload "application/pdf")).1 =
      HTTPException 400 "No embedded images found in this PDF. The PDF may only contain text or vector graphics." ∧
    ∀ pdf_path tr,
      extract_images_from_pdf Demo.Image_open Demo.Image_save
        (Demo.opens Demo.doc_stub) pdf_path ≠ (Ok [], tr).
Proof.
  eexists. split; [vm_compute; reflexivity|]. split; [reflexivity|].
  eapply (empty_result_is_client_error Demo.Image_open Demo.Image_save
            (Demo.opens Demo.doc_stub) Demo.tmp Demo.writes
            (Demo.upload "application/pdf")).
  - reflexivity.
  - reflexivity.
  - reflexivity.
  - reflexivity.
  - vm_compute. reflexivity.
  - reflexivity.
Defined.

Lemma small_images_never_emitted_witness :
  ∃ st bi,
    walk Demo.Image_open Demo.Image_save Demo.doc_shared = Ok st ∧
    extract_image Demo.doc_shared 9 = Ok bi ∧
    len (bi_image bi) = 120 ∧
    (9 ∉ sources st) ∧ records_of 9 st = [].
Proof.
  eexists. eexists. split; [vm_compute; reflexivity|].
  split; [reflexivity|]. split; [reflexivity|].
  apply (small_images_never_emitted Demo.Image_open Demo.Image_save Demo.doc_shared
           _ 9 (Demo.flat x00 x05 x05 x10 x20 x30 xff 113)).
  - vm_compute. reflexivity.
  - reflexivity.
  - right. eexists. split; [reflexivity|]. left. simpl. lia.
Defined.

Lemma rgba_flattened_onto_white_witness :
  (mode (normalize Demo.rgba_img) = "RGB" ∧
   getpixel (normalize Demo.rgba_img) 3 4 =
     {| chan_r := 227; chan_g := 127; chan_b := 127; chan_a := 255 |} ∧
   getpixel (normalize Demo.rgba_img) 3 4 =
     getpixel (flatten_on_white Demo.rgba_img) 3 4) ∧
  (has_alpha (mode Demo.la_grey) = true ∧
   normalize Demo.la_grey = convert_RGB Demo.la_grey ∧
   mode (normalize Demo.la_grey) = "RGB" ∧
   getpixel (normalize Demo.la_grey) 3 4 =
     {| chan_r := 100; chan_g := 100; chan_b := 100; chan_a := 255 |} ∧
   getpixel (flatten_on_white Demo.la_grey) 3 4 =
     {| chan_r := 255; chan_g := 255; chan_b := 255; chan_a := 255 |}).
Proof.
  split.
  - destruct (rgba_flattened_onto_white Demo.rgba_img) as [H _].
    destruct (H eq_refl) as (Hm & _ & Hpix).
    split; [exact Hm|]. split; [reflexivity|].
    exact (proj1 (Hpix 3 4 eq_refl)).
  - destruct (rgba_flattened_onto_white Demo.la_grey) as (_ & H & _).
    assert (mode Demo.la_grey ≠ "RGBA") as Hne by discriminate.
    destruct (H eq_refl Hne) as (Hconv & Hm & _ & Hpix).
    split; [reflexivity|]. split; [exact Hconv|]. split; [exact Hm|].
    split; [exact (Hpix 3 4) | reflexivity].
Defined.

Lemma alpha_mode_la_not_composited :
  ¬ (∀ img, has_alpha (mode img) = true →
       ∀ x y, in_box img x y = true →
         getpixel (normalize img) x y = getpixel (flatten_on_white img) x y).
Proof.
  intros H. specialize (H Demo.la_img eq_refl 0 0 eq_refl).
  vm_compute in H. discriminate H.
Qed.

Lemma image_index_sequence_witness :
  ∃ imgs tr,
    extract_images_from_pdf Demo.Image_open Demo.Image_save
      (Demo.opens Demo.doc_mixed) Demo.tmp = (Ok imgs, tr) ∧
    imageIndex <$> imgs = [1; 2].
Proof.
  eexists. eexists. split; [vm_compute; reflexivity|].
  exact (proj1 (image_index_sequence Demo.Image_open Demo.Image_save
                  (Demo.opens Demo.doc_mixed) Demo.tmp _ _ eq_refl)).
Defined.

Lemma document_left_open_on_page_error_witness :
  walk Demo.Image_open Demo.Image_save Demo.doc_broken =
    Raise (Exception "cannot load page") ∧
  (extract_images Demo.Image_open Demo.Image_save (Demo.opens Demo.doc_broken)
     Demo.tmp Demo.writes (Demo.upload "application/pdf")).1 =
    HTTPException 500 "Error processing PDF: cannot load page" ∧
  leftover (extract_images Demo.Image_open Demo.Image_save (Demo.opens Demo.doc_broken)
     Demo.tmp Demo.writes (Demo.upload "application/pdf")).2 =
    {| open_documents := [Demo.tmp]; temp_files := [] |}.
Proof.
  split; [vm_compute; reflexivity|]. split; [vm_compute; reflexivity|].
  eapply (document_left_open_on_page_error Demo.Image_open Demo.Image_save
            (Demo.opens Demo.doc_broken) Demo.tmp Demo.writes
            (Demo.upload "application/pdf")).
  - reflexivity.
  - reflexivity.
  - reflexivity.
  - reflexivity.
  - vm_compute. reflexivity.
Defined.

Lemma wrong_content_type_rejected_witness :
  content_type (Demo.upload "text/plain") ≠ Some "application/pdf" ∧
  extract_images Demo.Image_open Demo.Image_save (Demo.opens Demo.doc_shared)
    Demo.tmp Demo.writes (Demo.upload "text/plain") =
  (HTTPException 400 "File must be a PDF", []).
Proof.
  assert (content_type (Demo.upload "text/plain") ≠ Some "application/pdf") as H
    by discriminate.
  split; [exact H|].
  exact (wrong_content_type_rejected Demo.Image_open Demo.Image_save
           (Demo.opens Demo.doc_shared) Demo.tmp Demo.writes _ H).
Defined.


Lemma rejected_never_retried_witness :
  ∃ st,
    walk Demo.Image_open Demo.Image_save Demo.doc_stub = Ok st ∧
    referencing_pages (doc_pages Demo.doc_stub) 0 11 = [1; 2] ∧
    encode_embedded Demo.Image_open Demo.Image_save Demo.doc_stub 11 =
      Skipped TooFewBytes ∧
    11 ∈ seen_xrefs
           (image_step Demo.Image_open Demo.Image_save Demo.doc_stub 0 initial
              (Demo.entry 11)) ∧
    image_step Demo.Image_open Demo.Image_save Demo.doc_stub 1
      (image_step Demo.Image_open Demo.Image_save Demo.doc_stub 0 initial
         (Demo.entry 11))
      (Demo.entry 11) =
    image_step Demo.Image_open Demo.Image_save Demo.doc_stub 0 initial (Demo.entry 11) ∧
    11 ∈ seen_xrefs st ∧ (11 ∉ sources st) ∧ records_of 11 st = [].
Proof.
  destruct (rejected_never_retried Demo.Image_open Demo.Image_save Demo.doc_stub)
    as (Hmark & Hlater & Hseen & Hskip).
  eexists. split; [vm_compute; reflexivity|].
  split; [reflexivity|]. split; [reflexivity|].
  split; [exact (Hmark 0 initial (Demo.entry 11))|].
  split; [exact (Hlater 0 initial (Demo.entry 11) [] 1 (Demo.entry 11) eq_refl)|].
  split.
  - apply (Hseen _ 11 1 [2]); [vm_compute; reflexivity | reflexivity].
  - apply (Hskip _ 11 TooFewBytes); [vm_compute; reflexivity | reflexivity].
Defined.

Lemma page_numbers_ascending_witness :
  ∃ imgs tr,
    extract_images_from_pdf Demo.Image_open Demo.Image_save
      (Demo.opens Demo.doc_mixed) Demo.tmp = (Ok imgs, tr) ∧
    pageNumber <$> imgs = [1; 3] ∧
    StronglySorted Z.le (pageNumber <$> imgs) ∧
    Forall (λ r, 1 ≤ pageNumber r ≤ len (doc_pages Demo.doc_mixed)) imgs.
Proof.
  eexists. eexists. split; [vm_compute; reflexivity|]. split; [reflexivity|].
  apply (page_numbers_ascending Demo.Image_open Demo.Image_save
           (Demo.opens Demo.doc_mixed) Demo.tmp Demo.doc_mixed _
           [EvOpen Demo.tmp true; EvClose Demo.tmp]).
  - reflexivity.
  - vm_compute. reflexivity.
Defined.

(** ** Substrings *)

Lemma prefix_cons a s b h :
  String.prefix (String a s) (String b h) = bool_decide (a = b) && String.prefix s h.
Proof.
  cbn [String.prefix]. destruct (ascii_dec a b) as [->|Hne].
  - by rewrite bool_decide_eq_true_2.
  - by rewrite bool_decide_eq_false_2.
Qed.

Lemma prefix_spec needle hay :
  String.prefix needle hay = true ↔ ∃ post, hay = needle +:+ post.
Proof.
  revert hay. induction needle as [|a needle IH]; intros hay.
  - split; [intros _; by exists hay | by destruct hay].
  - destruct hay as [|b hay].
    + split; [done | by intros [post [=]]].
    + rewrite prefix_cons, andb_true_iff, bool_decide_eq_true, IH. split.
      * intros [-> [post ->]]. by exists post.
      * intros [post [= -> ->]]. split; [done | by exists post].
Qed.

(** [contains] is the substring test: the hay is some text, the needle,
    and some more text. *)
Lemma contains_spec needle hay :
  contains needle hay = true ↔ ∃ pre post, hay = pre +:+ needle +:+ post.
Proof.
  induction hay as [|b hay IH].
  - cbn [contains]. rewrite orb_false_r, prefix_spec. split.
    + intros [post ->]. by exists EmptyString, post.
    + intros (pre & post & H). destruct pre; [by exists post|done].
  - cbn [contains]. rewrite orb_true_iff, prefix_spec, IH. split.
    + intros [[post ->] | (pre & post & ->)].
      * by exists EmptyString, post.
      * by exists (String b pre), post.
    + intros (pre & post & H). destruct pre as [|c pre].
      * left. by exists post.
      * right. injection H as -> ->. by exists pre, post.
Qed.

(** The words put before the cause do not hide or fake the phrase. *)
Lemma contains_after_prefix s :
  contains "No embedded images found" ("Error processing PDF: " +:+ s) =
  contains "No embedded images found" s.
Proof.
  change ("Error processing PDF: " +:+ s) with
    (String "E" (String "r" (String "r" (String "o" (String "r" (String " "
      (String "p" (String "r" (String "o" (String "c" (String "e" (String "s"
      (String "s" (String "i" (String "n" (String "g" (String " " (String "P"
      (String "D" (String "F" (String ":" (String " " s)))))))))))))))))))))).
  cbn [contains].
  rewrite !prefix_cons.
  repeat (rewrite bool_decide_eq_false_2 by discriminate; cbn [andb orb]).
  done.
Qed.

(** ** More on the extraction endpoint *)

Section Responses.

Context (Image_open : list byte → result Image)
        (Image_save : Image → string → Z → Z → result (list byte))
        (fitz_open : string → result Document)
        (tmp_name : string)
        (tmp_write : list byte → result unit).

Abbreviation pipeline' := (extract_images_from_pdf Image_open Image_save fitz_open).
Abbreviation endpoint' :=
  (extract_images Image_open Image_save fitz_open tmp_name tmp_write).

(** What the pipeline can come to: a non-empty list, the fixed message,
    or a cause behind the words "Error processing PDF: ". *)
Lemma pipeline_cases pdf_path :
  (∃ imgs, pipeline' pdf_path = (Ok imgs, [EvOpen pdf_path true; EvClose pdf_path]) ∧
           imgs ≠ []) ∨
  pipeline' pdf_path =
    (Raise (Exception no_images_message), [EvOpen pdf_path true; EvClose pdf_path]) ∨
  (∃ e, fitz_open pdf_path = Raise e ∧
        pipeline' pdf_path =
          (Raise (Exception ("Error processing PDF: " +:+ str e)), [EvOpen pdf_path false])) ∨
  (∃ pdf_document e,
        fitz_open pdf_path = Ok pdf_document ∧
        walk Image_open Image_save pdf_document = Raise e ∧
        pipeline' pdf_path =
          (Raise (Exception ("Error processing PDF: " +:+ str e)), [EvOpen pdf_path true])).
Proof.
  unfold extract_images_from_pdf.
  destruct (fitz_open pdf_path) as [pdf_document|e] eqn:Ho.
  - destruct (walk _ _ pdf_document) as [st|e] eqn:Hw.
    + destruct (images st) as [|r rs] eqn:E; [by right; left|].
      left. by exists (r :: rs).
    + right; right; right. by exists pdf_document, e.
  - right; right; left. by exists e.
Qed.

Lemma endpoint_unstored file :
  content_type file = Some "application/pdf" →
  (∃ e, read file = Raise e) ∨
  (∃ content e, read file = Ok content ∧ tmp_write content = Raise e) →
  ∃ e tr,
    endpoint' file = (Unhandled e, EvTmpCreate tmp_name :: tr) ∧
    (tr = [EvRead] ∨ tr = [EvRead; EvWrite tmp_name]).
Proof.
  intros Hct Hfail. unfold extract_images, handle_upload.
  rewrite (is_pdf_true _ Hct).
  destruct Hfail as [[e ->] | (content & e & -> & ->)]; eauto.
Qed.

(** X1: the status of an error answer follows its detail: 400 for the
    content-type message and for a detail that has the phrase
    "No embedded images found" in it, 500 for every other detail. *)
Theorem error_status_follows_detail file code detail tr :
  extract_images Image_open Image_save fitz_open tmp_name tmp_write file =
    (HTTPException code detail, tr) →
  (detail = "File must be a PDF" ∧ code = 400 ∧ tr = []) ∨
  (content_type file = Some "application/pdf" ∧
   code = (if contains "No embedded images found" detail then 400 else 500) ∧
   ((code = 400) ↔ ∃ pre post, detail = pre +:+ "No embedded images found" +:+ post)).
Proof.
  unfold extract_images. destruct (is_pdf file) eqn:Hpdf; simpl.
  - intros H. right.
    assert (content_type file = Some "application/pdf") as Hct.
    { unfold is_pdf in Hpdf. destruct (content_type file) as [ct|]; [|done].
      apply andb_true_iff in Hpdf as [_ ->%String.eqb_eq]. done. }
    split; [done|].
    assert (code = if contains "No embedded images found" detail then 400 else 500) as Hc.
    { unfold handle_upload in H.
      destruct (read file) as [content|e]; [|done].
      destruct (tmp_write content) as [[]|e]; [|done].
      destruct (pipeline' tmp_name) as [[imgs|e] tr'].
      - done.
      - unfold on_exception in H. by injection H as <- <- _. }
    split; [done|]. rewrite <- contains_spec, Hc.
    destruct (contains _ detail); split; done.
  - intros [= <- <- <-]. by left.
Qed.

(** X2: when the file cannot be opened as a document, the answer carries
    the cause behind "Error processing PDF: ", with status 500 unless the
    cause itself has the phrase "No embedded images found" in it; no
    document is left open and the temporary file is deleted. *)
Theorem open_failure_reported file content e :
  content_type file = Some "application/pdf" →
  read file = Ok content →
  tmp_write content = Ok () →
  fitz_open tmp_name = Raise e →
  extract_images Image_open Image_save fitz_open tmp_name tmp_write file =
    (HTTPException (if contains "No embedded images found" (str e) then 400 else 500)
       ("Error processing PDF: " +:+ str e),
     [EvTmpCreate tmp_name; EvRead; EvWrite tmp_name; EvOpen tmp_name false;
      EvUnlink tmp_name]) ∧
  leftover (extract_images Image_open Image_save fitz_open tmp_name tmp_write file).2 =
    {| open_documents := []; temp_files := [] |}.
Proof.
  intros Hct Hread Hwrite Hopen.
  assert (endpoint' file =
    (HTTPException (if contains "No embedded images found" (str e) then 400 else 500)
       ("Error processing PDF: " +:+ str e),
     [EvTmpCreate tmp_name; EvRead; EvWrite tmp_name; EvOpen tmp_name false;
      EvUnlink tmp_name])) as Heq.
  { rewrite (endpoint_stored _ _ _ _ _ _ _ Hct Hread Hwrite).
    unfold extract_images_from_pdf. rewrite Hopen. cbn [fst snd].
    unfold on_exception. cbn [str]. by rewrite contains_after_prefix. }
  split; [done|]. rewrite Heq. unfold leftover. simpl. by rewrite remove_one_head.
Qed.

(** X3: a success answer has [success] true, [totalImages] equal to the
    number of images, at least one image, and is given only after the
    document was closed and the temporary file deleted. *)
Theorem success_answer file success imgs total tr :
  extract_images Image_open Image_save fitz_open tmp_name tmp_write file =
    (JSONResponse success imgs total, tr) →
  success = true ∧ total = len imgs ∧ 1 ≤ total ∧
  tr = [EvTmpCreate tmp_name; EvRead; EvWrite tmp_name; EvOpen tmp_name true;
        EvClose tmp_name; EvUnlink tmp_name] ∧
  leftover tr = {| open_documents := []; temp_files := [] |}.
Proof.
  unfold extract_images. destruct (is_pdf file); simpl; [|done].
  unfold handle_upload.
  destruct (read file) as [content|e]; [|done].
  destruct (tmp_write content) as [[]|e]; [|done].
  destruct (pipeline_cases tmp_name) as
    [(imgs' & -> & Hne) | [-> | [(e & _ & ->) | (d & e & _ & _ & ->)]]]; try done.
  intros [= <- <- <- <-]. repeat split.
  - destruct imgs' as [|r rs]; [done|]. unfold len. simpl. lia.
  - unfold leftover. simpl. by rewrite !remove_one_head.
Qed.


(** X5: when reading the upload or writing the temporary file raises,
    the [finally] clause fails on the unbound [tmp_file_path]: the
    request ends in an exception no handler catches instead of the
    HTTP 500 of the [except] clause, nothing is opened, and the temporary
    file stays on disk. *)
Theorem upload_failure_unhandled file :
  content_type file = Some "application/pdf" →
  (∃ e, read file = Raise e) ∨
  (∃ content e, read file = Ok content ∧ tmp_write content = Raise e) →
  (∃ e, (extract_images Image_open Image_save fitz_open tmp_name tmp_write file).1 =
          Unhandled e) ∧
  leftover (extract_images Image_open Image_save fitz_open tmp_name tmp_write file).2 =
    {| open_documents := []; temp_files := [tmp_name] |}.
Proof.
  intros Hct Hfail.
  destruct (endpoint_unstored _ Hct Hfail) as (e & tr & -> & Htr).
  split; [by exists e|]. by destruct Htr as [-> | ->].
Qed.

End Responses.

(** ** More on the walk *)

Lemma first_candidate_is_Some cs x :
  is_Some (first_candidate cs x) ↔ x ∈ (λ c : Z * img_info, info_xref c.2) <$> cs.
Proof.
  induction cs as [|[p info] cs IH]; simpl.
  - split; [by intros [? ?] | by intros ?%elem_of_nil].
  - rewrite elem_of_cons. destruct (decide (info_xref info = x)) as [->|Hne].
    + split; [by left | by eexists].
    + rewrite IH. split; [by right | intros [?|?]; [simpl in *; congruence | done]].
Qed.

Section Pages.

Context (Image_open : list byte → result Image)
        (Image_save : Image → string → Z → Z → result (list byte))
        (fitz_open : string → result Document).

Lemma page_loop_raises pdf_document oks e rest n st :
  page_loop Image_open Image_save pdf_document ((Ok <$> oks) ++ Raise e :: rest) n st =
  Raise e.
Proof.
  revert n st. induction oks as [|l oks IH]; intros n st; [done|].
  rewrite fmap_cons. cbn [app page_loop]. destruct l; apply IH.
Qed.

(** X6: a page that fails to load ends the walk with that page's
    exception, whatever the pages before it gave: the pipeline raises
    "Error processing PDF: " with the cause and returns none of the images
    found so far. *)
Theorem walk_raises_at_first_failing_page pdf_path pdf_document oks e rest :
  fitz_open pdf_path = Ok pdf_document →
  doc_pages pdf_document = (Ok <$> oks) ++ Raise e :: rest →
  walk Image_open Image_save pdf_document = Raise e ∧
  extract_images_from_pdf Image_open Image_save fitz_open pdf_path =
    (Raise (Exception ("Error processing PDF: " +:+ str e)), [EvOpen pdf_path true]).
Proof.
  intros Hopen Hpages.
  assert (walk Image_open Image_save pdf_document = Raise e) as Hw.
  { unfold walk. rewrite Hpages. apply page_loop_raises. }
  split; [done|]. unfold extract_images_from_pdf. by rewrite Hopen, Hw.
Qed.

(** X7: after a walk that ends, the seen set holds exactly the xrefs the
    pages refer to, the counter equals the number of records, and there
    are at most as many records as distinct xrefs. *)
Theorem seen_set_is_all_xrefs pdf_document st :
  walk Image_open Image_save pdf_document = Ok st →
  seen_xrefs st = list_to_set (all_xrefs (doc_pages pdf_document)) ∧
  image_index st = len (images st) ∧
  (length (images st) ≤ base.size (seen_xrefs st))%nat.
Proof.
  intros [_ Hs]%walk_settled.
  assert (∀ x, x ∈ seen_xrefs st ↔ x ∈ all_xrefs (doc_pages pdf_document)) as Hseen.
  { intros x. rewrite (settled_seen Hs). apply first_candidate_is_Some. }
  split; [|split].
  - apply set_eq. intros x. by rewrite Hseen, elem_of_list_to_set.
  - rewrite (settled_index Hs). unfold images, len. by rewrite length_fmap.
  - unfold images. rewrite length_fmap, <- (length_fmap fst).
    rewrite <- (size_list_to_set (C := gset Z)) by apply (settled_nodup Hs).
    apply subseteq_size. intros x Hx%elem_of_list_to_set.
    apply (settled_seen Hs). by eapply settled_source.
Qed.

End Pages.

(** ** More on colour normalisation *)

Lemma normalize_passthrough img :
  mode img = "RGB" ∨ mode img = "L" → normalize img = img.
Proof. intros [Hm | Hm]; unfold normalize; by rewrite Hm. Qed.

(** X8: normalisation keeps the size of the image, leaves an RGB or L
    image as it is, and applied twice does no more than applied once. *)
Theorem normalize_idempotent img :
  PIL.size (normalize img) = PIL.size img ∧
  normalize (normalize img) = normalize img ∧
  (mode img = "RGB" ∨ mode img = "L" → normalize img = img).
Proof.
  split; [|split].
  - unfold normalize.
    destruct (String.eqb (mode img) "RGBA"); [done|].
    destruct (String.eqb (mode img) "P"); [done|].
    by destruct (negb _).
  - apply normalize_passthrough, normalize_mode.
  - apply normalize_passthrough.
Qed.

Lemma blend8_white_range a c :
  0 ≤ a ≤ 255 → 0 ≤ c ≤ 255 → c ≤ blend8 a 255 c ≤ 255.
Proof.
  intros Ha Hc.
  assert (Forall (λ a, Forall (λ c, c ≤ blend8 a 255 c ≤ 255) (seqZ 0 256)) (seqZ 0 256))
    as Hall.
  { apply (bool_decide_unpack _). by vm_compute. }
  rewrite Forall_forall in Hall.
  assert (a ∈ seqZ 0 256) as Hin by (apply elem_of_seqZ; lia).
  specialize (Hall a Hin). rewrite Forall_forall in Hall.
  apply Hall, elem_of_seqZ. lia.
Qed.

(** X10: flattening an RGBA image never darkens it and never leaves the
    byte range: with alpha and colour bands between 0 and 255, every band
    of the result lies between the band of the source and 255. *)
Theorem flattened_bands_in_range img x y :
  mode img = "RGBA" →
  in_box img x y = true →
  0 ≤ chan_a (getpixel img x y) ≤ 255 →
  0 ≤ chan_r (getpixel img x y) ≤ 255 →
  0 ≤ chan_g (getpixel img x y) ≤ 255 →
  0 ≤ chan_b (getpixel img x y) ≤ 255 →
  chan_r (getpixel img x y) ≤ chan_r (getpixel (normalize img) x y) ≤ 255 ∧
  chan_g (getpixel img x y) ≤ chan_g (getpixel (normalize img) x y) ≤ 255 ∧
  chan_b (getpixel img x y) ≤ chan_b (getpixel (normalize img) x y) ≤ 255 ∧
  chan_a (getpixel (normalize img) x y) = 255.
Proof.
  intros Hm Hbox Ha Hr Hg Hb. unfold normalize. rewrite Hm. simpl. rewrite Hbox. simpl.
  repeat split; try (by apply blend8_white_range); by apply blend8_white_range.
Qed.

(** ** More on the data URL *)

Lemma b64encode_length bs :
  String.length (Base64.b64encode bs) = (4 * ((length bs + 2) / 3))%nat.
Proof.
  induction bs as [|a|a b|a b c l IH] using Base64Facts.list_ind3; try done.
  cbn [Base64.b64encode String.length length]. rewrite IH.
  replace (S (S (S (length l))) + 2)%nat with (length l + 2 + 1 * 3)%nat by lia.
  rewrite Nat.div_add by done. lia.
Qed.

Lemma length_append' s t :
  String.length (s +:+ t) = (String.length s + String.length t)%nat.
Proof.
  induction s as [|c s IH]; [done|].
  change (String c s +:+ t) with (String c (s +:+ t)). simpl. by rewrite IH.
Qed.

(** X11: the base64 text of bytes decodes back to them, so the data URL
    of encoded bytes determines them: two URLs are equal only for equal
    bytes; and the length of the URL is 23 characters of header plus four
    characters for every three bytes, rounded up. *)
Theorem data_url_faithful webp1 webp2 :
  Base64.b64decode (Base64.b64encode webp1) = Some webp1 ∧
  ("data:image/webp;base64," +:+ Base64.b64encode webp1 =
   "data:image/webp;base64," +:+ Base64.b64encode webp2 ↔ webp1 = webp2) ∧
  String.length ("data:image/webp;base64," +:+ Base64.b64encode webp1) =
    (23 + 4 * ((length webp1 + 2) / 3))%nat.
Proof.
  split; [apply Base64Facts.b64_roundtrip|]. split.
  - split; [|by intros ->].
    intros H%(f_equal parse_data_url). rewrite !parse_webp_url in H. congruence.
  - by rewrite length_append', b64encode_length.
Qed.

(** ** The debug endpoint *)

Lemma all_xrefs_loaded (ls : list (list img_info)) n :
  (λ c : Z * img_info, info_xref c.2) <$> candidates (Ok <$> ls) n =
  concat ((λ l : list img_info, info_xref <$> l) <$> ls).
Proof.
  revert n. induction ls as [|l ls IH]; intros n; [done|].
  rewrite !fmap_cons. cbn [candidates concat].
  rewrite fmap_app, <- list_fmap_compose, IH. done.
Qed.

Lemma candidate_page pages n p info :
  (p, info) ∈ candidates pages n →
  ∃ i l, pages !! i = Some (Ok l) ∧ info ∈ l ∧ p = n + Z.of_nat i.
Proof.
  revert n. induction pages as [|[l|e] pages IH]; intros n; simpl;
    [by intros ?%elem_of_nil | | by intros ?%elem_of_nil].
  intros [Hin | Hin]%elem_of_app.
  - apply list_elem_of_fmap in Hin as (info' & [= -> ->] & Hin).
    exists 0%nat, l. repeat split; [done | lia].
  - destruct (IH _ Hin) as (i & l' & Hi & Hl & ->).
    exists (S i), l'. repeat split; [done | done | lia].
Qed.

Lemma loads_fmap pages : loads pages → ∃ ls, pages = Ok <$> ls.
Proof.
  induction 1 as [|page pages [l ->] _ [ls ->]]; [by exists []|].
  by exists (l :: ls).
Qed.

Section DebugFacts.

Context (fitz_open : string → result Document)
        (tmp_name : string)
        (tmp_write : list byte → result unit)
        (dict_width dict_height : Z → option Z).

Abbreviation summarize' := (Debug.summarize dict_width dict_height).
Abbreviation page_info' := (Debug.page_info dict_width dict_height).
Abbreviation dpage_loop := (Debug.page_loop dict_width dict_height).
Abbreviation scan' := (Debug.scan fitz_open dict_width dict_height).
Abbreviation debug_pdf' :=
  (Debug.debug_pdf fitz_open tmp_name tmp_write dict_width dict_height).

(** A summary that tells the truth about its object. *)
Abbreviation truthful pdf_document s :=
  (∃ bi, extract_image pdf_document (Debug.xref s) = Ok bi ∧
         Debug.size s = len (bi_image bi) ∧
         Debug.ext s = bi_ext bi ∧
         Debug.width s = Debug.get_or_unknown (dict_width (Debug.xref s)) ∧
         Debug.height s = Debug.get_or_unknown (dict_height (Debug.xref s))).

(** What the inner loop has gathered: the entries so far, then one entry
    for each xref that resolves, in order. *)
Lemma summaries pdf_document l acc :
  let out := foldl (summarize' pdf_document) acc l in
  Debug.xref <$> out =
    (Debug.xref <$> acc) ++
    filter (λ x, resolves pdf_document x = true) (info_xref <$> l) ∧
  (Forall (λ s, truthful pdf_document s) acc → Forall (λ s, truthful pdf_document s) out).
Proof.
  revert acc. induction l as [|info l IH]; intros acc; simpl.
  - by rewrite app_nil_r.
  - destruct (IH (summarize' pdf_document acc info)) as [Hx Hs].
    unfold Debug.summarize in *.
    destruct (extract_image pdf_document (info_xref info)) as [bi|e] eqn:E.
    + rewrite filter_cons_True by (unfold resolves; by rewrite E).
      split.
      * rewrite Hx, fmap_app. simpl. by rewrite <- app_assoc.
      * intros Hacc. apply Hs, Forall_app. split; [done|].
        repeat constructor. by exists bi.
    + rewrite filter_cons_False by (unfold resolves; by rewrite E).
      done.
Qed.

Lemma dpage_loop_loaded pdf_document (ls : list (list img_info)) n acc :
  dpage_loop pdf_document (Ok <$> ls) n acc =
  Ok (acc ++ imap (λ i l, page_info' pdf_document (n + Z.of_nat i) l) ls).
Proof.
  revert n acc. induction ls as [|l ls IH]; intros n acc.
  - simpl. by rewrite app_nil_r.
  - rewrite fmap_cons. cbn [Debug.page_loop]. rewrite IH.
    rewrite imap_cons, <- app_assoc. simpl. do 3 f_equal.
    + f_equal. lia.
    + apply imap_ext. intros i l' _. simpl. f_equal. lia.
Qed.

Lemma dpage_loop_raises pdf_document oks e rest n acc :
  dpage_loop pdf_document ((Ok <$> oks) ++ Raise e :: rest) n acc = Raise e.
Proof.
  revert n acc. induction oks as [|l oks IH]; intros n acc; [done|].
  rewrite fmap_cons. cbn [app Debug.page_loop]. apply IH.
Qed.

Lemma scan_loaded pdf_path pdf_document (ls : list (list img_info)) :
  fitz_open pdf_path = Ok pdf_document →
  doc_pages pdf_document = Ok <$> ls →
  scan' pdf_path =
    (Ok {| Debug.totalPages := len ls;
           Debug.pages := imap (λ i l, page_info' pdf_document (Z.of_nat i) l) ls |},
     [EvOpen pdf_path true; EvClose pdf_path]).
Proof.
  intros Hopen Hpages. unfold Debug.scan. rewrite Hopen, Hpages, dpage_loop_loaded.
  simpl. unfold len. by rewrite length_fmap.
Qed.

Lemma debug_stored file content :
  content_type file = Some "application/pdf" →
  read file = Ok content →
  tmp_write content = Ok () →
  debug_pdf' file =
    (match (scan' tmp_name).1 with
     | Ok debug_info => Debug.JSONResponse debug_info
     | Raise e => Debug.HTTPException 500 (str e)
     end,
     EvTmpCreate tmp_name ::
       ([EvRead; EvWrite tmp_name] ++ (scan' tmp_name).2) ++ [EvUnlink tmp_name]).
Proof.
  intros Hct Hread Hwrite. unfold Debug.debug_pdf, Debug.handle_upload.
  rewrite (is_pdf_true _ Hct), Hread, Hwrite. simpl.
  by destruct (scan' tmp_name) as [r tr].
Qed.

(** X12: for a document that opens and whose pages all load, the debug
    endpoint answers with one entry per page, in order: page [i] (from 0)
    has page number [i + 1], the count of its image references, and one
    summary for each reference that resolves, in order, with the
    extension and byte count of its object; references that do not
    resolve are left out without an error. A document without images
    is answered the same way; the document is closed and the temporary
    file deleted. *)
Theorem debug_answer_shape file content pdf_document (ls : list (list img_info)) :
  content_type file = Some "application/pdf" →
  read file = Ok content →
  tmp_write content = Ok () →
  fitz_open tmp_name = Ok pdf_document →
  doc_pages pdf_document = Ok <$> ls →
  ∃ info,
    Debug.debug_pdf fitz_open tmp_name tmp_write dict_width dict_height file =
      (Debug.JSONResponse info,
       [EvTmpCreate tmp_name; EvRead; EvWrite tmp_name; EvOpen tmp_name true;
        EvClose tmp_name; EvUnlink tmp_name]) ∧
    Debug.totalPages info = len ls ∧
    length (Debug.pages info) = length ls ∧
    ∀ i l, ls !! i = Some l →
      ∃ pi, Debug.pages info !! i = Some pi ∧
            Debug.pageNumber pi = Z.of_nat i + 1 ∧
            Debug.imageCount pi = len l ∧
            Debug.xref <$> Debug.images pi =
              filter (λ x, resolves pdf_document x = true) (info_xref <$> l) ∧
            Forall (λ s, ∃ bi, extract_image pdf_document (Debug.xref s) = Ok bi ∧
                               Debug.size s = len (bi_image bi) ∧
                               Debug.ext s = bi_ext bi ∧
                               Debug.width s = Debug.get_or_unknown (dict_width (Debug.xref s)) ∧
                               Debug.height s = Debug.get_or_unknown (dict_height (Debug.xref s)))
                   (Debug.images pi).
Proof.
  intros Hct Hread Hwrite Hopen Hpages.
  eexists. split.
  { rewrite (debug_stored _ _ Hct Hread Hwrite), (scan_loaded _ _ _ Hopen Hpages).
    reflexivity. }
  simpl. split; [done|]. split; [by rewrite length_imap|].
  intros i l Hi. eexists. split; [by rewrite list_lookup_imap, Hi|].
  simpl. split; [done|]. split; [done|].
  destruct (summaries pdf_document l []) as [Hx Hs]. split; [exact Hx|].
  apply Hs. constructor.
Qed.

(** X13: when a page fails to load the debug endpoint answers 500 with
    the bare cause as detail, and, as in the extraction, the document is
    still open when the request returns; the temporary file is gone. *)
Theorem debug_page_error_leaves_document_open file content pdf_document oks e rest :
  content_type file = Some "application/pdf" →
  read file = Ok content →
  tmp_write content = Ok () →
  fitz_open tmp_name = Ok pdf_document →
  doc_pages pdf_document = (Ok <$> oks) ++ Raise e :: rest →
  Debug.debug_pdf fitz_open tmp_name tmp_write dict_width dict_height file =
    (Debug.HTTPException 500 (str e),
     [EvTmpCreate tmp_name; EvRead; EvWrite tmp_name; EvOpen tmp_name true;
      EvUnlink tmp_name]) ∧
  leftover (Debug.debug_pdf fitz_open tmp_name tmp_write dict_width dict_height file).2 =
    {| open_documents := [tmp_name]; temp_files := [] |}.
Proof.
  intros Hct Hread Hwrite Hopen Hpages.
  assert (debug_pdf' file =
    (Debug.HTTPException 500 (str e),
     [EvTmpCreate tmp_name; EvRead; EvWrite tmp_name; EvOpen tmp_name true;
      EvUnlink tmp_name])) as Heq.
  { rewrite (debug_stored _ _ Hct Hread Hwrite). unfold Debug.scan.
    by rewrite Hopen, Hpages, dpage_loop_raises. }
  split; [done|]. rewrite Heq. unfold leftover. simpl. by rewrite remove_one_head.
Qed.

(** X14: the debug endpoint answers 400 only for a wrong content type,
    before any effect; every other error answer is a 500, also for a
    document without images or with a cause that has the phrase of the
    extraction endpoint in it. *)
Theorem debug_error_status file code detail tr :
  Debug.debug_pdf fitz_open tmp_name tmp_write dict_width dict_height file =
    (Debug.HTTPException code detail, tr) →
  (code = 400 ∧ detail = "File must be a PDF" ∧ tr = [] ∧
   content_type file ≠ Some "application/pdf") ∨
  (code = 500 ∧ content_type file = Some "application/pdf" ∧
   ∃ e, detail = str e ∧ (scan' tmp_name).1 = Raise e).
Proof.
  unfold Debug.debug_pdf. destruct (is_pdf file) eqn:Hpdf; simpl.
  - intros H. right.
    assert (content_type file = Some "application/pdf") as Hct.
    { unfold is_pdf in Hpdf. destruct (content_type file) as [ct|]; [|done].
      apply andb_true_iff in Hpdf as [_ ->%String.eqb_eq]. done. }
    unfold Debug.handle_upload in H.
    destruct (read file) as [content|e]; [|done].
    destruct (tmp_write content) as [[]|e]; [|done].
    destruct (scan' tmp_name) as [[dbg|e] tr']; [done|].
    injection H as <- <- _. repeat split; try done. by exists e.
  - intros [= <- <- <-]. left. repeat split; try done.
    intros Hct. by rewrite (is_pdf_true _ Hct) in Hpdf.
Qed.

Lemma dpage_loop_ok pdf_document pages n acc out :
  dpage_loop pdf_document pages n acc = Ok out → ∃ ls, pages = Ok <$> ls.
Proof.
  revert n acc. induction pages as [|[l|e] pages IH]; intros n acc; simpl.
  - by exists [].
  - intros [ls ->]%IH. by exists (l :: ls).
  - done.
Qed.

Lemma scan_returns pdf_path dbg tr :
  scan' pdf_path = (Ok dbg, tr) →
  ∃ pdf_document ls,
    fitz_open pdf_path = Ok pdf_document ∧
    doc_pages pdf_document = Ok <$> ls ∧
    dbg = {| Debug.totalPages := len ls;
             Debug.pages := imap (λ i l, page_info' pdf_document (Z.of_nat i) l) ls |}.
Proof.
  intros H. pose proof H as H'. unfold Debug.scan in H'.
  destruct (fitz_open pdf_path) as [pdf_document|e] eqn:Hopen; [|done].
  destruct (dpage_loop _ _ _ _) as [out|e] eqn:Hloop; [|done].
  apply dpage_loop_ok in Hloop as [ls Hls].
  rewrite (scan_loaded _ _ _ Hopen Hls) in H. injection H as <- <-.
  by exists pdf_document, ls.
Qed.

Lemma counts_of_pages pdf_document (ls : list (list img_info)) n :
  foldr Z.add 0
    (Debug.imageCount <$> imap (λ i l, page_info' pdf_document (n + Z.of_nat i) l) ls) =
  len (concat ((λ l : list img_info, info_xref <$> l) <$> ls)).
Proof.
  revert n. induction ls as [|l ls IH]; intros n; [done|].
  rewrite imap_cons, !fmap_cons. cbn [foldr concat].
  rewrite (imap_ext _ (λ i l, page_info' pdf_document ((n + 1) + Z.of_nat i) l))
    by (intros i l' _; simpl; f_equal; lia).
  rewrite IH. simpl. unfold len. rewrite length_app, length_fmap. lia.
Qed.

Lemma listed_of_pages pdf_document (ls : list (list img_info)) n :
  concat ((λ pi, Debug.xref <$> Debug.images pi) <$>
            imap (λ i l, page_info' pdf_document (n + Z.of_nat i) l) ls) =
  filter (λ x, resolves pdf_document x = true)
    (concat ((λ l : list img_info, info_xref <$> l) <$> ls)).
Proof.
  revert n. induction ls as [|l ls IH]; intros n; [done|].
  rewrite imap_cons, !fmap_cons. cbn [concat].
  rewrite (imap_ext _ (λ i l, page_info' pdf_document ((n + 1) + Z.of_nat i) l))
    by (intros i l' _; simpl; f_equal; lia).
  rewrite IH, filter_app. f_equal. simpl.
  by destruct (summaries pdf_document l []) as [-> _].
Qed.

(** X15: the debug listing does not deduplicate and does not filter: the
    image counts of the pages add up to the number of references in the
    document, repetitions included, and the summaries, page after page,
    are those of the references that resolve, in order, as often as they
    occur. *)
Theorem debug_counts_every_reference pdf_path pdf_document dbg tr :
  fitz_open pdf_path = Ok pdf_document →
  Debug.scan fitz_open dict_width dict_height pdf_path = (Ok dbg, tr) →
  foldr Z.add 0 (Debug.imageCount <$> Debug.pages dbg) =
    len (all_xrefs (doc_pages pdf_document)) ∧
  concat ((λ pi, Debug.xref <$> Debug.images pi) <$> Debug.pages dbg) =
    filter (λ x, resolves pdf_document x = true) (all_xrefs (doc_pages pdf_document)).
Proof.
  intros Hopen (doc & ls & Hopen' & Hpages & ->)%scan_returns.
  rewrite Hopen in Hopen'. injection Hopen' as <-.
  unfold all_xrefs. rewrite Hpages, all_xrefs_loaded. simpl. split.
  - apply (counts_of_pages pdf_document ls 0).
  - apply (listed_of_pages pdf_document ls 0).
Qed.

Context (Image_open : list byte → result Image)
        (Image_save : Image → string → Z → Z → result (list byte)).

(** X16: every image the extraction returns is in the debug listing of
    the same document, on the page its record names, with a byte count of
    at least 100. *)
Theorem debug_lists_every_extracted_image pdf_path pdf_document st x r :
  fitz_open pdf_path = Ok pdf_document →
  walk Image_open Image_save pdf_document = Ok st →
  (x, r) ∈ emitted st →
  ∃ dbg tr pi s,
    Debug.scan fitz_open dict_width dict_height pdf_path = (Ok dbg, tr) ∧
    Debug.pages dbg !! Z.to_nat (pageNumber r - 1) = Some pi ∧
    Debug.pageNumber pi = pageNumber r ∧
    s ∈ Debug.images pi ∧
    Debug.xref s = x ∧
    100 ≤ Debug.size s.
Proof.
  intros Hopen [[ls Hpages]%loads_fmap Hs]%walk_settled [k Hk]%list_elem_of_lookup.
  destruct (settled_record Hs _ _ _ Hk) as (_ & Hu & Hfirst).
  apply encode_accepted in Hu as (bi & _ & _ & Hbi & Hlen & _).
  apply first_candidate_Some in Hfirst as (p & info & Hc & Hx & Hp).
  apply candidate_page in Hc as (i & l & Hi & Hl & ->).
  rewrite Hpages, list_lookup_fmap in Hi.
  destruct (ls !! i) as [l'|] eqn:Hli; [|done]. injection Hi as ->.
  assert (x ∈ filter (λ x, resolves pdf_document x = true) (info_xref <$> l)) as Hin.
  { apply list_elem_of_filter. split; [unfold resolves; by rewrite Hbi|].
    rewrite <- Hx. apply list_elem_of_fmap. by exists info. }
  destruct (summaries pdf_document l []) as [Hxs Htrue].
  simpl in Hxs. rewrite <- Hxs in Hin.
  apply list_elem_of_fmap in Hin as (s & -> & Hs_in).
  assert (Forall (λ s, truthful pdf_document s)
            (foldl (summarize' pdf_document) [] l)) as Hall by (apply Htrue; constructor).
  rewrite Forall_forall in Hall.
  destruct (Hall s Hs_in) as (bi' & Hbi' & Hsize & _).
  rewrite Hbi in Hbi'. injection Hbi' as <-.
  eexists _, _, (page_info' pdf_document (Z.of_nat i) l), s.
  split; [apply (scan_loaded _ _ _ Hopen Hpages)|]. simpl.
  replace (Z.to_nat (pageNumber r - 1)) with i by lia.
  rewrite list_lookup_imap, Hli. simpl.
  repeat split; try done; lia.
Qed.

End DebugFacts.

(** ** More worked examples *)

Lemma error_status_follows_detail_witness :
  extract_images Demo.Image_open Demo.Image_save DemoDebug.refuses Demo.tmp Demo.writes
    (Demo.upload "application/pdf") =
    (HTTPException 400
       "Error processing PDF: No embedded images found in the cross-reference table",
     [EvTmpCreate Demo.tmp; EvRead; EvWrite Demo.tmp; EvOpen Demo.tmp false;
      EvUnlink Demo.tmp]) ∧
  ((400 = 400) ↔
   ∃ pre post,
     "Error processing PDF: No embedded images found in the cross-reference table" =
     pre +:+ "No embedded images found" +:+ post).
Proof.
  split; [reflexivity|].
  destruct (error_status_follows_detail Demo.Image_open Demo.Image_save
              DemoDebug.refuses Demo.tmp Demo.writes (Demo.upload "application/pdf")
              400 "Error processing PDF: No embedded images found in the cross-reference table"
              _ eq_refl) as [(H & _) | (_ & _ & H)]; [discriminate H | exact H].
Defined.

Lemma open_failure_reported_witness :
  extract_images Demo.Image_open Demo.Image_save DemoDebug.refuses Demo.tmp Demo.writes
    (Demo.upload "application/pdf") =
    (HTTPException 400
       "Error processing PDF: No embedded images found in the cross-reference table",
     [EvTmpCreate Demo.tmp; EvRead; EvWrite Demo.tmp; EvOpen Demo.tmp false;
      EvUnlink Demo.tmp]) ∧
  leftover (extract_images Demo.Image_open Demo.Image_save DemoDebug.refuses Demo.tmp
              Demo.writes (Demo.upload "application/pdf")).2 =
    {| open_documents := []; temp_files := [] |}.
Proof.
  apply (open_failure_reported Demo.Image_open Demo.Image_save DemoDebug.refuses
           Demo.tmp Demo.writes (Demo.upload "application/pdf")
           [x25; x50; x44; x46]
           (Exception "No embedded images found in the cross-reference table"));
    reflexivity.
Defined.

Lemma success_answer_witness :
  ∃ imgs tr,
    extract_images Demo.Image_open Demo.Image_save (Demo.opens Demo.doc_mixed) Demo.tmp
      Demo.writes (Demo.upload "application/pdf") = (JSONResponse true imgs 2, tr) ∧
    2 = len imgs ∧
    leftover tr = {| open_documents := []; temp_files := [] |}.
Proof.
  eexists. eexists. split; [vm_compute; reflexivity|].
  destruct (success_answer Demo.Image_open Demo.Image_save (Demo.opens Demo.doc_mixed)
              Demo.tmp Demo.writes (Demo.upload "application/pdf") true _ 2 _ eq_refl)
    as (_ & Hn & _ & _ & Hl).
  split; [exact Hn | exact Hl].
Defined.


Lemma upload_failure_unhandled_witness :
  (∃ e, (extract_images Demo.Image_open Demo.Image_save (Demo.opens Demo.doc_shared)
           Demo.tmp Demo.writes DemoDebug.upload_unreadable).1 = Unhandled e) ∧
  leftover (extract_images Demo.Image_open Demo.Image_save (Demo.opens Demo.doc_shared)
              Demo.tmp Demo.writes DemoDebug.upload_unreadable).2 =
    {| open_documents := []; temp_files := [Demo.tmp] |}.
Proof.
  apply (upload_failure_unhandled Demo.Image_open Demo.Image_save
           (Demo.opens Demo.doc_shared) Demo.tmp Demo.writes DemoDebug.upload_unreadable).
  - reflexivity.
  - left. eexists. reflexivity.
Defined.

Lemma walk_raises_at_first_failing_page_witness :
  walk Demo.Image_open Demo.Image_save Demo.doc_broken =
    Raise (Exception "cannot load page") ∧
  extract_images_from_pdf Demo.Image_open Demo.Image_save (Demo.opens Demo.doc_broken)
    Demo.tmp =
    (Raise (Exception "Error processing PDF: cannot load page"), [EvOpen Demo.tmp true]).
Proof.
  apply (walk_raises_at_first_failing_page Demo.Image_open Demo.Image_save
           (Demo.opens Demo.doc_broken) Demo.tmp Demo.doc_broken
           [[Demo.entry 7]] (Exception "cannot load page") []); reflexivity.
Defined.

Lemma seen_set_is_all_xrefs_witness :
  ∃ st,
    walk Demo.Image_open Demo.Image_save Demo.doc_mixed = Ok st ∧
    seen_xrefs st = list_to_set [13; 9; 7; 13] ∧
    image_index st = 2 ∧
    (length (images st) ≤ base.size (seen_xrefs st))%nat.
Proof.
  eexists. split; [vm_compute; reflexivity|].
  destruct (seen_set_is_all_xrefs Demo.Image_open Demo.Image_save Demo.doc_mixed _
              ltac:(vm_compute; reflexivity)) as (Hseen & Hidx & Hlen).
  split; [exact Hseen|]. split; [exact Hidx | exact Hlen].
Defined.

Lemma flattened_bands_in_range_witness :
  200 ≤ chan_r (getpixel (normalize Demo.rgba_img) 3 4) ≤ 255 ∧
  0 ≤ chan_g (getpixel (normalize Demo.rgba_img) 3 4) ≤ 255 ∧
  0 ≤ chan_b (getpixel (normalize Demo.rgba_img) 3 4) ≤ 255 ∧
  chan_a (getpixel (normalize Demo.rgba_img) 3 4) = 255.
Proof.
  apply (flattened_bands_in_range Demo.rgba_img 3 4); [reflexivity | reflexivity | | | |];
    simpl; lia.
Defined.

Lemma debug_answer_shape_witness :
  ∃ info,
    Debug.debug_pdf (Demo.opens DemoDebug.doc_repeat) Demo.tmp Demo.writes
      DemoDebug.widths DemoDebug.heights (Demo.upload "application/pdf") =
      (Debug.JSONResponse info,
       [EvTmpCreate Demo.tmp; EvRead; EvWrite Demo.tmp; EvOpen Demo.tmp true;
        EvClose Demo.tmp; EvUnlink Demo.tmp]) ∧
    Debug.totalPages info = 2 ∧
    length (Debug.pages info) = 2%nat.
Proof.
  destruct (debug_answer_shape (Demo.opens DemoDebug.doc_repeat) Demo.tmp Demo.writes
              DemoDebug.widths DemoDebug.heights (Demo.upload "application/pdf")
              [x25; x50; x44; x46] DemoDebug.doc_repeat
              [[Demo.entry 7; Demo.entry 99]; [Demo.entry 7]]
              eq_refl eq_refl eq_refl eq_refl eq_refl)
    as (info & Hresp & Htotal & Hlen & _).
  exists info. split; [exact Hresp|]. split; [exact Htotal | exact Hlen].
Defined.

Lemma debug_page_error_leaves_document_open_witness :
  Debug.debug_pdf (Demo.opens Demo.doc_broken) Demo.tmp Demo.writes
    DemoDebug.widths DemoDebug.heights (Demo.upload "application/pdf") =
    (Debug.HTTPException 500 "cannot load page",
     [EvTmpCreate Demo.tmp; EvRead; EvWrite Demo.tmp; EvOpen Demo.tmp true;
      EvUnlink Demo.tmp]) ∧
  leftover (Debug.debug_pdf (Demo.opens Demo.doc_broken) Demo.tmp Demo.writes
              DemoDebug.widths DemoDebug.heights (Demo.upload "application/pdf")).2 =
    {| open_documents := [Demo.tmp]; temp_files := [] |}.
Proof.
  apply (debug_page_error_leaves_document_open (Demo.opens Demo.doc_broken) Demo.tmp
           Demo.writes DemoDebug.widths DemoDebug.heights (Demo.upload "application/pdf")
           [x25; x50; x44; x46] Demo.doc_broken [[Demo.entry 7]]
           (Exception "cannot load page") []); reflexivity.
Defined.

Lemma debug_error_status_witness :
  Debug.debug_pdf DemoDebug.refuses Demo.tmp Demo.writes DemoDebug.widths
    DemoDebug.heights (Demo.upload "application/pdf") =
    (Debug.HTTPException 500 "No embedded images found in the cross-reference table",
     [EvTmpCreate Demo.tmp; EvRead; EvWrite Demo.tmp; EvOpen Demo.tmp false;
      EvUnlink Demo.tmp]) ∧
  content_type (Demo.upload "application/pdf") = Some "application/pdf".
Proof.
  split; [reflexivity|].
  destruct (debug_error_status DemoDebug.refuses Demo.tmp Demo.writes DemoDebug.widths
              DemoDebug.heights (Demo.upload "application/pdf") 500
              "No embedded images found in the cross-reference table" _ eq_refl)
    as [(H & _) | (_ & H & _)]; [discriminate H | exact H].
Defined.

Lemma debug_counts_every_reference_witness :
  ∃ dbg tr,
    Debug.scan (Demo.opens DemoDebug.doc_repeat) DemoDebug.widths DemoDebug.heights
      Demo.tmp = (Ok dbg, tr) ∧
    foldr Z.add 0 (Debug.imageCount <$> Debug.pages dbg) = 3 ∧
    concat ((λ pi, Debug.xref <$> Debug.images pi) <$> Debug.pages dbg) = [7; 7].
Proof.
  eexists. eexists. split; [vm_compute; reflexivity|].
  apply (debug_counts_every_reference (Demo.opens DemoDebug.doc_repeat)
           DemoDebug.widths DemoDebug.heights Demo.tmp DemoDebug.doc_repeat _
           [EvOpen Demo.tmp true; EvClose Demo.tmp]);
    [reflexivity | vm_compute; reflexivity].
Defined.

Lemma debug_lists_every_extracted_image_witness :
  ∃ dbg tr pi s,
    Debug.scan (Demo.opens Demo.doc_mixed) DemoDebug.widths DemoDebug.heights Demo.tmp =
      (Ok dbg, tr) ∧
    Debug.pages dbg !! 2%nat = Some pi ∧
    Debug.pageNumber pi = 3 ∧
    s ∈ Debug.images pi ∧
    Debug.xref s = 7 ∧
    100 ≤ Debug.size s.
Proof.
  destruct (walk Demo.Image_open Demo.Image_save Demo.doc_mixed) as [st|e] eqn:Hw;
    [|vm_compute in Hw; discriminate Hw].
  apply (debug_lists_every_extracted_image (Demo.opens Demo.doc_mixed)
           DemoDebug.widths DemoDebug.heights Demo.Image_open Demo.Image_save
           Demo.tmp Demo.doc_mixed st 7
           {| pageNumber := 3; imageIndex := 2;
              url := "data:image/webp;base64,yMhVBhAgMA==" |});
    [reflexivity | exact Hw |].
  vm_compute in Hw. injection Hw as <-. right. left.
Defined.
